(** * go-logger: the rendering and dispatch pipeline

    A shallow embedding of the logging code of [kimxuanhong/go-logger]:

    - [logger/Logger.go]: the [StdLogger] facade, its level gate
      ([LogLevel], [parseLogLevel], [shouldLog]), the [log] method and the
      context-bound wrapper [StdLoggerWithContext], with the [Config] record
      it is built from;
    - [logger/context.go]: the correlation-ID propagator
      ([InjectRequestID], [GetRequestID], [WithContext]) and [Init], which
      configures the package logger;
    - [logger/formatter.go]: [DefaultFunctionNameFormatter] and the pattern
      engine [DynamicFormatter.Format], and the earlier [Format] without
      hooks (module [Legacy]).

    Go strings are byte sequences and are modelled by [string]; Go [int]
    values that are only carried around are modelled by [Z]; maps are
    [gmap]s; an interface value that may be nil is an [option]; a call that
    panics is an explicit [Panic] outcome.  What the code takes from the Go
    standard library and from logrus is modelled as far as the code uses
    it. *)

From Stdlib Require Import ZArith Ascii String DecimalString Lia.
From stdpp Require Import base option list strings gmap.

Local Open Scope Z_scope.

(** ** Outcomes of Go calls *)

(** A Go call either returns or panics; the panic text is the one the runtime
    or the standard library reports. *)
Inductive outcome (A : Type) : Type :=
  | Ret (a : A)
  | Panic (reason : string).
Arguments Ret {A} a.
Arguments Panic {A} reason.

(** Sequencing of calls, with stdpp's notation [x ← m; k]. *)
Global Instance outcome_ret : MRet outcome := @Ret.
Global Instance outcome_bind : MBind outcome := λ A B k m,
  match m with
  | Ret a => k a
  | Panic r => Panic r
  end.

Definition nil_dereference : string :=
  "runtime error: invalid memory address or nil pointer dereference".

(** Calling a method through an interface value: a nil interface panics. *)
Definition invoke {I A : Type} (iface : option I) (call : I → A) : outcome A :=
  match iface with
  | Some i => Ret (call i)
  | None => Panic nil_dereference
  end.

(** ** The part of Go's [strings] package the logger uses *)

Module GoStrings.

(** [strings.IndexByte(s, c) >= 0]. *)
Fixpoint has_byte (c : ascii) (s : string) : bool :=
  match s with
  | EmptyString => false
  | String a s' => if Ascii.eqb a c then true else has_byte c s'
  end.

(** [strings.HasPrefix(s, p)]. *)
Definition HasPrefix (s p : string) : bool := String.prefix p s.

(** The scan of [strings.Replace(s, old, new, -1)] for a non-empty [old]:
    the leftmost occurrence of [old] is replaced and the scan resumes right
    after it, so occurrences never overlap.  [skip] counts the bytes of the
    occurrence just replaced that are still to be passed over. *)
Fixpoint replace_from (old new : string) (skip : nat) (s : string) : string :=
  match s with
  | EmptyString => EmptyString
  | String c s' =>
      match skip with
      | S k => replace_from old new k s'
      | O =>
          if HasPrefix s old
          then new +:+ replace_from old new (String.length old - 1) s'
          else String c (replace_from old new 0 s')
      end
  end.

(** [strings.ReplaceAll(s, old, new)].  Every call in the logger passes a
    non-empty literal for [old]; Go's insertion at every rune boundary for
    an empty [old] is outside this model, and [s] is returned as it is. *)
Definition ReplaceAll (s old new : string) : string :=
  match old with
  | EmptyString => s
  | _ => replace_from old new 0 s
  end.

(** [strings.Contains(s, sub)] for a non-empty [sub]. *)
Fixpoint Contains (s sub : string) : bool :=
  match s with
  | EmptyString => false
  | String _ s' => if HasPrefix s sub then true else Contains s' sub
  end.

(** The scan of [strings.Split(s, sep)] for a non-empty [sep]; [cur] is the
    segment being collected. *)
Fixpoint split_from (sep : string) (skip : nat) (cur s : string) : list string :=
  match s with
  | EmptyString => [cur]
  | String c s' =>
      match skip with
      | S k => split_from sep k cur s'
      | O =>
          if HasPrefix s sep
          then cur :: split_from sep (String.length sep - 1) EmptyString s'
          else split_from sep 0 (cur +:+ String c EmptyString) s'
      end
  end.

(** [strings.Split(s, sep)], [sep] non-empty. *)
Definition Split (s sep : string) : list string := split_from sep 0 EmptyString s.

Definition lower_byte (c : ascii) : ascii :=
  let n := nat_of_ascii c in
  if (Nat.leb 65 n && Nat.leb n 90)%bool then ascii_of_nat (n + 32) else c.

Definition upper_byte (c : ascii) : ascii :=
  let n := nat_of_ascii c in
  if (Nat.leb 97 n && Nat.leb n 122)%bool then ascii_of_nat (n - 32) else c.

Fixpoint map_bytes (f : ascii → ascii) (s : string) : string :=
  match s with
  | EmptyString => EmptyString
  | String c s' => String (f c) (map_bytes f s')
  end.

(** The UTF-8 encodings of the two runes beyond ASCII whose lower-case form
    is an ASCII letter: U+0130, capital I with dot above, which
    [unicode.ToLower] maps to [i], and U+212A, the Kelvin sign, which it maps
    to [k]. *)
Definition capital_I_with_dot : string :=
  String (ascii_of_nat 196) (String (ascii_of_nat 176) EmptyString).
Definition kelvin_sign : string :=
  String (ascii_of_nat 226)
    (String (ascii_of_nat 132) (String (ascii_of_nat 170) EmptyString)).

(** The scan of [strings.ToLower]; [skip] counts the bytes of a rune just
    folded that are still to be passed over. *)
Fixpoint lower_from (skip : nat) (s : string) : string :=
  match s with
  | EmptyString => EmptyString
  | String c s' =>
      match skip with
      | S k => lower_from k s'
      | O =>
          if HasPrefix s capital_I_with_dot then String "i" (lower_from 1 s')
          else if HasPrefix s kelvin_sign then String "k" (lower_from 2 s')
          else String (lower_byte c) (lower_from 0 s')
      end
  end.

(** [strings.ToLower].  ASCII letters are lowered byte by byte, and the two
    runes above are folded to their ASCII letters, so the result is exact
    whenever Go's result is ASCII text.  Every other byte beyond ASCII is
    kept: it stands for the text beyond ASCII that Go produces there, and
    the logger only ever compares the result with ASCII names. *)
Definition ToLower (s : string) : string := lower_from 0 s.

(** [strings.ToUpper] on the ASCII letters; the logger applies it to ASCII
    level names only. *)
Definition ToUpper : string → string := map_bytes upper_byte.

(** Every byte of the text is beyond ASCII. *)
Fixpoint beyond_ascii (s : string) : bool :=
  match s with
  | EmptyString => true
  | String c s' => (Nat.leb 128 (nat_of_ascii c) && beyond_ascii s')%bool
  end.

End GoStrings.

Import GoStrings.

Global Arguments HasPrefix : simpl never.


Definition newline : string := String (ascii_of_nat 10) "".

(** ** Dynamic values and [fmt] *)

(** A value of Go's [any].  A value of a type the logger never inspects is
    carried as [Opaque], by the text [fmt.Sprint] prints for it. *)
Inductive any : Type :=
  | Nil
  | Str (s : string)
  | Int (n : Z)
  | Bool (b : bool)
  | Opaque (text : string).

(** [fmt.Sprintf("%d", n)]. *)
Definition itoa (n : Z) : string := NilZero.string_of_int (Z.to_int n).

(** [fmt.Sprint(v)] of one operand, which is also what the verb [%v] prints. *)
Definition Sprint (v : any) : string :=
  match v with
  | Nil => "<nil>"
  | Str s => s
  | Int n => itoa n
  | Bool b => if b then "true" else "false"
  | Opaque text => text
  end.

(** ** Go's [context] package *)

(** Context keys are compared by dynamic type and value: the unexported key
    types of [context.go] and of [Logger.go], and keys of other packages. *)
Inductive ctxKey : Type :=
  | contextKey (name : string)
  | logContextKey (name : string)
  | foreignKey (type name : string).

Global Instance ctxKey_eq_dec : EqDecision ctxKey.
Proof. solve_decision. Defined.

(** A non-nil [context.Context]: the root, a value overlay, or a cancellation
    (timeout, deadline) wrapper, which carries no value of its own. *)
Inductive Context : Type :=
  | Background
  | valueCtx (parent : Context) (key : ctxKey) (val : any)
  | cancelCtx (parent : Context).

(** [ctx.Value(key)] on a non-nil context: the nearest enclosing binding. *)
Fixpoint Context_Value (ctx : Context) (key : ctxKey) : any :=
  match ctx with
  | Background => Nil
  | valueCtx parent k val => if decide (k = key) then val else Context_Value parent key
  | cancelCtx parent => Context_Value parent key
  end.

(** [context.WithValue(parent, key, val)]; a nil parent panics. *)
Definition context_WithValue (parent : option Context) (key : ctxKey) (val : any)
  : outcome Context :=
  match parent with
  | None => Panic "cannot create context from nil parent"
  | Some p => Ret (valueCtx p key val)
  end.

(** ** [path.Base] *)

Fixpoint strip_trailing_slashes (p : string) : string :=
  match p with
  | EmptyString => EmptyString
  | String c rest =>
      match strip_trailing_slashes rest with
      | EmptyString => if Ascii.eqb c "/" then EmptyString else String c EmptyString
      | kept => String c kept
      end
  end.

Definition path_Base (p : string) : string :=
  match p with
  | EmptyString => "."
  | _ =>
      match last (Split (strip_trailing_slashes p) "/") with
      | Some EmptyString | None => "/"
      | Some elem => elem
      end
  end.

(** ** The part of [github.com/sirupsen/logrus] the logger relies on *)

(** A [time.Time], observed only through [Format(layout)] and [IsZero()]. *)
Record time_Time : Type := { Time_Format : string → string; IsZero : bool }.

(** The fields of [runtime.Frame] that the formatter reads. *)
Record Frame : Type := { Function : string; File : string; Line : Z }.

Module logrus.

Inductive Level : Type :=
  | PanicLevel | FatalLevel | ErrorLevel | WarnLevel
  | InfoLevel | DebugLevel | TraceLevel.

(** The numeric value of a level: [PanicLevel] is 0, [TraceLevel] is 6. *)
Definition rank (l : Level) : Z :=
  match l with
  | PanicLevel => 0 | FatalLevel => 1 | ErrorLevel => 2 | WarnLevel => 3
  | InfoLevel => 4 | DebugLevel => 5 | TraceLevel => 6
  end.

(** [Level.String]. *)
Definition Level_String (l : Level) : string :=
  match l with
  | PanicLevel => "panic" | FatalLevel => "fatal" | ErrorLevel => "error"
  | WarnLevel => "warning" | InfoLevel => "info" | DebugLevel => "debug"
  | TraceLevel => "trace"
  end.

(** [logrus.ParseLevel]; [None] stands for the returned error. *)
Definition ParseLevel (lvl : string) : option Level :=
  let l := ToLower lvl in
  if decide (l = "panic") then Some PanicLevel
  else if decide (l = "fatal") then Some FatalLevel
  else if decide (l = "error") then Some ErrorLevel
  else if decide (l = "warn") then Some WarnLevel
  else if decide (l = "warning") then Some WarnLevel
  else if decide (l = "info") then Some InfoLevel
  else if decide (l = "debug") then Some DebugLevel
  else if decide (l = "trace") then Some TraceLevel
  else None.

Record Entry : Type := {
  Data : gmap string any;
  Time : time_Time;
  EntryLevel : Level;
  Caller : option Frame;
  Message : string
}.

(** A [logrus.Logger]: its formatter (an interface value, given by its
    [Format] method, which returns the bytes and an error), its level and
    the caller-reporting switch. *)
Record Logger : Type := {
  Formatter : Entry → outcome (string * option string);
  LoggerLevel : Level;
  ReportCaller : bool
}.

Definition SetReportCaller (l : Logger) (b : bool) : Logger :=
  {| Formatter := Formatter l; LoggerLevel := LoggerLevel l; ReportCaller := b |}.
Definition SetLevel (l : Logger) (level : Level) : Logger :=
  {| Formatter := Formatter l; LoggerLevel := level; ReportCaller := ReportCaller l |}.
Definition SetFormatter (l : Logger) (f : Entry → outcome (string * option string))
  : Logger :=
  {| Formatter := f; LoggerLevel := LoggerLevel l; ReportCaller := ReportCaller l |}.

Definition IsLevelEnabled (l : Logger) (level : Level) : bool :=
  rank level <=? rank (LoggerLevel l).

(** What a log call reads from its surroundings: the clock and the frame
    of the caller, if one is found. *)
Record Site : Type := { site_now : time_Time; site_caller : option Frame }.

(** [Logger.WithFields(fields)]: an entry that carries [fields] and is
    otherwise zero; [zero] is the zero [time.Time]. *)
Definition WithFields (fields : gmap string any) (zero : time_Time) : Entry :=
  {| Data := fields; Time := zero; EntryLevel := PanicLevel;
     Caller := None; Message := "" |}.

(** [Entry.Info(msg)]: when the level is enabled, a copy of the entry gets
    the time (unless it has one), the level, the message and (if the logger
    reports callers) the caller frame, and is handed to the logger's
    formatter.  The result is the text written to the logger's output, if
    any. *)
Definition Entry_Info (log : Logger) (entry : Entry) (msg : string) (site : Site)
  : outcome (option string) :=
  if IsLevelEnabled log InfoLevel then
    let newEntry :=
      {| Data := Data entry;
         Time := if IsZero (Time entry) then site_now site else Time entry;
         EntryLevel := InfoLevel;
         Caller := if ReportCaller log then site_caller site else None;
         Message := msg |} in
    res ← Formatter log newEntry;
    match res with
    | (serialized, None) => Ret (Some serialized)
    | (_, Some _) => Ret None
    end
  else Ret None.

End logrus.

(** ** [formatter.go] *)

(** The two hook interfaces, each with its single method. *)
Record FunctionNameFormatter : Type :=
  { FunctionNameFormatter_Format : string → string }.

Record MessageFormater : Type :=
  { MessageFormater_Format : string → string }.

(** [DefaultFunctionNameFormatter.Format]: the last element of
    [strings.Split(fullName, ".")], or [fullName] if there is none. *)
Definition DefaultFunctionNameFormatter_Format (fullName : string) : string :=
  let parts := Split fullName "." in
  match last parts with
  | Some part => part
  | None => fullName
  end.

Definition DefaultFunctionNameFormatter : FunctionNameFormatter :=
  {| FunctionNameFormatter_Format := DefaultFunctionNameFormatter_Format |}.

Definition DefaultMessageFormater_Format (message : string) : string := message.

Definition DefaultMessageFormater : MessageFormater :=
  {| MessageFormater_Format := DefaultMessageFormater_Format |}.

(** The hook fields hold interface values and may be nil. *)
Record DynamicFormatter : Type := {
  Pattern : string;
  TimestampFormat : string;
  MsgFormatter : option MessageFormater;
  FunctionNameFormatter_ : option FunctionNameFormatter
}.

(** [DynamicFormatter.Format]. *)
Definition DynamicFormatter_Format (f : DynamicFormatter) (entry : logrus.Entry)
  : outcome (string * option string) :=
  let timestamp := Time_Format (logrus.Time entry) (TimestampFormat f) in
  let level := ToUpper (logrus.Level_String (logrus.EntryLevel entry)) in
  let logger := default Nil (logrus.Data entry !! "logger") in
  let logger := match logger with Nil => Str "main" | _ => logger end in
  message ← invoke (MsgFormatter f)
              (λ m, MessageFormater_Format m (logrus.Message entry));
  site ← match logrus.Caller entry with
         | None => Ret ("???", 0, "???")
         | Some caller =>
             function ← invoke (FunctionNameFormatter_ f)
                          (λ h, FunctionNameFormatter_Format h (Function caller));
             Ret (path_Base (File caller), Line caller, function)
         end;
  let '(file, line, function) := site in
  let requestID :=
    match logrus.Data entry !! "requestId" with
    | Some rid => Sprint rid
    | None => "unknown"
    end in
  let out := Pattern f in
  let out := ReplaceAll out "%timestamp%" timestamp in
  let out := ReplaceAll out "%level%" level in
  let out := ReplaceAll out "%logger%" (Sprint logger) in
  let out := ReplaceAll out "%file%" file in
  let out := ReplaceAll out "%line%" (itoa line) in
  let out := ReplaceAll out "%function%" function in
  let out := ReplaceAll out "%requestId%" requestID in
  let out := ReplaceAll out "%message%" message in
  Ret (out +:+ newline, None).

(** The earlier formatter, without hooks: the message and the function name
    are substituted as the entry has them. *)
Module Legacy.

Record DynamicFormatter : Type := {
  Pattern : string;
  TimestampFormat : string
}.

Definition DynamicFormatter_Format (f : DynamicFormatter) (entry : logrus.Entry)
  : outcome (string * option string) :=
  let timestamp := Time_Format (logrus.Time entry) (TimestampFormat f) in
  let level := ToUpper (logrus.Level_String (logrus.EntryLevel entry)) in
  let logger := default Nil (logrus.Data entry !! "logger") in
  let logger := match logger with Nil => Str "main" | _ => logger end in
  let message := logrus.Message entry in
  let '(file, line, function) :=
    match logrus.Caller entry with
    | None => ("???", 0, "???")
    | Some caller => (path_Base (File caller), Line caller, Function caller)
    end in
  let requestID :=
    match logrus.Data entry !! "requestId" with
    | Some rid => Sprint rid
    | None => "unknown"
    end in
  let out := Pattern f in
  let out := ReplaceAll out "%timestamp%" timestamp in
  let out := ReplaceAll out "%level%" level in
  let out := ReplaceAll out "%logger%" (Sprint logger) in
  let out := ReplaceAll out "%file%" file in
  let out := ReplaceAll out "%line%" (itoa line) in
  let out := ReplaceAll out "%function%" function in
  let out := ReplaceAll out "%requestId%" requestID in
  let out := ReplaceAll out "%message%" message in
  Ret (out +:+ newline, None).

End Legacy.

(** ** [context.go]: the correlation ID and the package logger *)

Definition requestIDKey : ctxKey := contextKey "requestId".

Definition InjectRequestID (ctx : option Context) (requestID : string)
  : outcome Context :=
  context_WithValue ctx requestIDKey (Str requestID).

Definition GetRequestID (ctx : option Context) : outcome string :=
  v ← invoke ctx (λ c, Context_Value c requestIDKey);
  match v with
  | Nil => Ret "unknown"
  | _ => Ret (Sprint v)
  end.

(** [WithContext(ctx)]: an entry of the package logger [Log] that carries the
    correlation ID of [ctx] in its data. *)
Definition WithContext (ctx : option Context) (zero : time_Time)
  : outcome logrus.Entry :=
  requestID ← GetRequestID ctx;
  Ret (logrus.WithFields {[ "requestId" := Str requestID ]} zero).

(** The configuration read by [Init].  Its loader is not part of the sources
    at hand; [Init] takes what the loader returned, [None] for an error. *)
Record LogConfig : Type := {
  cfg_TimestampFormat : string;
  cfg_Pattern : string;
  cfg_Level : string
}.

(** [Init]: the new state of the package logger [Log] and the returned error,
    given the registered message formatter. *)
Definition Init (loaded : option LogConfig) (registeredMessageFormater : option MessageFormater)
    (Log : logrus.Logger) : logrus.Logger * option string :=
  let cfg :=
    match loaded with
    | Some cfg => cfg
    | None =>
        {| cfg_TimestampFormat := "2006-01-02 15:04:05";
           cfg_Pattern :=
             "%timestamp% | %level% | %requestId% | %file%:%line% | %function% | %message%";
           cfg_Level := "info" |}
    end in
  let level :=
    match logrus.ParseLevel (cfg_Level cfg) with
    | Some level => level
    | None => logrus.InfoLevel
    end in
  let Log := logrus.SetReportCaller Log true in
  let Log := logrus.SetLevel Log level in
  let Log := logrus.SetFormatter Log
               (DynamicFormatter_Format
                  {| Pattern := cfg_Pattern cfg;
                     TimestampFormat := cfg_TimestampFormat cfg;
                     MsgFormatter := registeredMessageFormater;
                     FunctionNameFormatter_ := None |}) in
  (Log, None).

(** ** [Logger.go]: the [StdLogger] facade *)

Definition LogLevel : Type := Z.

(** [iota + 1] onwards. *)
Definition DebugLevel : LogLevel := 0 + 1.
Definition InfoLevel : LogLevel := 1 + 1.
Definition WarnLevel : LogLevel := 2 + 1.
Definition ErrorLevel : LogLevel := 3 + 1.

Definition RequestIDKey : ctxKey := logContextKey "requestID".

Module Config.
Record t : Type := {
  LogType : string;
  LogDir : string;
  LogLevel : string;
  LogFormat : string
}.
End Config.

Definition DefaultConfig : Config.t :=
  {| Config.LogType := "console"; Config.LogDir := "./logs";
     Config.LogLevel := "info"; Config.LogFormat := "text" |}.

(** The underlying [*log.Logger] writes to a multi-writer; what it has
    written so far is threaded through the calls as a list of records. *)
Record StdLogger : Type := {
  currentLevel : LogLevel;
  format : string
}.

Definition parseLogLevel (level : string) : LogLevel :=
  let l := ToLower level in
  if decide (l = "debug") then DebugLevel
  else if decide (l = "info") then InfoLevel
  else if decide (l = "warn") then WarnLevel
  else if decide (l = "error") then ErrorLevel
  else InfoLevel.

(** [NewLogger]; opening the destinations is left to the surroundings. *)
Definition NewLogger (cfg : Config.t) : StdLogger :=
  {| currentLevel := parseLogLevel (Config.LogLevel cfg);
     format := ToLower (Config.LogFormat cfg) |}.

Definition DefaultLogger : StdLogger := NewLogger DefaultConfig.

Definition shouldLog (l : StdLogger) (level : LogLevel) : bool :=
  level >=? currentLevel l.

(** What [log] reads from its surroundings. *)
Record Env : Type := {
  fmt_Sprintf : string → list any → string;
  json_Marshal : gmap string any → option string;
  time_Now_RFC3339 : string;
  runtime_Caller3 : string * Z;
  runtime_Caller2 : option string;
  log_header : string
}.

Fixpoint ends_with_newline (s : string) : bool :=
  match s with
  | EmptyString => false
  | String c EmptyString => Ascii.eqb c (ascii_of_nat 10)
  | String _ rest => ends_with_newline rest
  end.

(** [log.Logger.Output]: the header, the text, and a newline unless the text
    already ends with one, written as one record. *)
Definition Logger_Output (env : Env) (s : string) (written : list string) : list string :=
  written ++ [log_header env +:+ s +:+ (if ends_with_newline s then "" else newline)].

Definition Logger_Println (env : Env) (s : string) (written : list string) : list string :=
  Logger_Output env (s +:+ newline) written.

(** [StdLogger.log]. *)
Definition StdLogger_log (l : StdLogger) (level : LogLevel) (levelStr msg : string)
    (ctx : option Context) (args : list any) (env : Env) (written : list string)
  : outcome (list string) :=
  if negb (shouldLog l level) then Ret written
  else
    let formatted := fmt_Sprintf env msg args in
    let file := (runtime_Caller3 env).1 in
    let line := (runtime_Caller3 env).2 in
    let funcName := default "unknown" (runtime_Caller2 env) in
    requestID ← invoke ctx (λ c, Context_Value c RequestIDKey);
    if decide (format l = "json") then
      let entry : gmap string any :=
        <["level" := Str levelStr]> (
        <["time" := Str (time_Now_RFC3339 env)]> (
        <["message" := Str formatted]> (
        <["file" := Str file]> (
        <["function" := Str funcName]> (
        <["line" := Int line]> (
        <["requestID" := requestID]> ∅)))))) in
      let jsonData := default "" (json_Marshal env entry) in
      Ret (Logger_Println env jsonData written)
    else
      Ret (Logger_Output env
             ("[" +:+ ToUpper levelStr +:+ "] " +:+ time_Now_RFC3339 env
              +:+ " | file=" +:+ file +:+ ", function=" +:+ funcName
              +:+ ", line=" +:+ itoa line +:+ ", requestID=" +:+ Sprint requestID
              +:+ " | " +:+ formatted)
             written).

Definition StdLogger_Debug (l : StdLogger) (msg : string) (args : list any) :=
  StdLogger_log l DebugLevel "debug" msg None args.
Definition StdLogger_Info (l : StdLogger) (msg : string) (args : list any) :=
  StdLogger_log l InfoLevel "info" msg None args.
Definition StdLogger_Warn (l : StdLogger) (msg : string) (args : list any) :=
  StdLogger_log l WarnLevel "warn" msg None args.
Definition StdLogger_Error (l : StdLogger) (msg : string) (args : list any) :=
  StdLogger_log l ErrorLevel "error" msg None args.

Record StdLoggerWithContext : Type := {
  embedded : StdLogger;
  ctx : option Context
}.

Definition StdLogger_WithContext (l : StdLogger) (ctx : option Context)
  : StdLoggerWithContext :=
  {| embedded := l; ctx := ctx |}.

Definition StdLoggerWithContext_log (l : StdLoggerWithContext) (level : LogLevel)
    (levelStr msg : string) (ctx' : option Context) (args : list any) :=
  let ctx' := match ctx' with None => ctx l | Some _ => ctx' end in
  StdLogger_log (embedded l) level levelStr msg ctx' args.

Definition StdLoggerWithContext_Debug (l : StdLoggerWithContext) (msg : string)
    (args : list any) :=
  StdLoggerWithContext_log l DebugLevel "debug" msg (ctx l) args.
Definition StdLoggerWithContext_Info (l : StdLoggerWithContext) (msg : string)
    (args : list any) :=
  StdLoggerWithContext_log l InfoLevel "info" msg (ctx l) args.
Definition StdLoggerWithContext_Warn (l : StdLoggerWithContext) (msg : string)
    (args : list any) :=
  StdLoggerWithContext_log l WarnLevel "warn" msg (ctx l) args.
Definition StdLoggerWithContext_Error (l : StdLoggerWithContext) (msg : string)
    (args : list any) :=
  StdLoggerWithContext_log l ErrorLevel "error" msg (ctx l) args.

(** ** Vocabulary of the specification *)

(** The severities of the facade, in ascending order of urgency. *)
Inductive Severity : Type := Debug | Info | Warn | Error.

Definition severity_rank (s : Severity) : nat :=
  match s with Debug => 0 | Info => 1 | Warn => 2 | Error => 3 end.

(** [severity_le m s]: [s] is at or above [m]. *)
Definition severity_le (m s : Severity) : Prop :=
  (severity_rank m ≤ severity_rank s)%nat.

Definition level_of (s : Severity) : LogLevel :=
  match s with
  | Debug => DebugLevel | Info => InfoLevel | Warn => WarnLevel | Error => ErrorLevel
  end.

(** The name of a severity in the configuration. *)
Definition level_name (s : Severity) : string :=
  match s with
  | Debug => "debug" | Info => "info" | Warn => "warn" | Error => "error"
  end.

(** The facade method of a severity, on a plain and on a bound logger. *)
Definition StdLogger_call (s : Severity) :=
  match s with
  | Debug => StdLogger_Debug | Info => StdLogger_Info
  | Warn => StdLogger_Warn | Error => StdLogger_Error
  end.

Definition StdLoggerWithContext_call (s : Severity) :=
  match s with
  | Debug => StdLoggerWithContext_Debug | Info => StdLoggerWithContext_Info
  | Warn => StdLoggerWithContext_Warn | Error => StdLoggerWithContext_Error
  end.

(** Whether a correlation ID was injected somewhere on the chain of [ctx]. *)
Fixpoint injected (ctx : Context) : bool :=
  match ctx with
  | Background => false
  | valueCtx parent k _ => if decide (k = requestIDKey) then true else injected parent
  | cancelCtx parent => injected parent
  end.

(** The eight values that [DynamicFormatter.Format] substitutes. *)
Record Fields : Type := {
  fld_timestamp : string;
  fld_level : string;
  fld_logger : string;
  fld_file : string;
  fld_line : string;
  fld_function : string;
  fld_requestID : string;
  fld_message : string
}.

(** The values [Format] computes from the entry before it touches the
    pattern. *)
Definition record_fields (f : DynamicFormatter) (entry : logrus.Entry)
  : outcome Fields :=
  message ← invoke (MsgFormatter f)
              (λ m, MessageFormater_Format m (logrus.Message entry));
  site ← match logrus.Caller entry with
         | None => Ret ("???", 0, "???")
         | Some caller =>
             function ← invoke (FunctionNameFormatter_ f)
                          (λ h, FunctionNameFormatter_Format h (Function caller));
             Ret (path_Base (File caller), Line caller, function)
         end;
  Ret {| fld_timestamp := Time_Format (logrus.Time entry) (TimestampFormat f);
         fld_level := ToUpper (logrus.Level_String (logrus.EntryLevel entry));
         fld_logger :=
           (let logger := default Nil (logrus.Data entry !! "logger") in
            Sprint (match logger with Nil => Str "main" | _ => logger end));
         fld_file := site.1.1;
         fld_line := itoa site.1.2;
         fld_function := site.2;
         fld_requestID :=
           match logrus.Data entry !! "requestId" with
           | Some rid => Sprint rid
           | None => "unknown"
           end;
         fld_message := message |}.

Definition legacy_fields (f : Legacy.DynamicFormatter) (entry : logrus.Entry) : Fields :=
  {| fld_timestamp := Time_Format (logrus.Time entry) (Legacy.TimestampFormat f);
     fld_level := ToUpper (logrus.Level_String (logrus.EntryLevel entry));
     fld_logger :=
       (let logger := default Nil (logrus.Data entry !! "logger") in
        Sprint (match logger with Nil => Str "main" | _ => logger end));
     fld_file := from_option (λ c, path_Base (File c)) "???" (logrus.Caller entry);
     fld_line := itoa (from_option Line 0 (logrus.Caller entry));
     fld_function := from_option Function "???" (logrus.Caller entry);
     fld_requestID :=
       match logrus.Data entry !! "requestId" with
       | Some rid => Sprint rid
       | None => "unknown"
       end;
     fld_message := logrus.Message entry |}.

(** The pattern after the seven substitutions that come before the message. *)
Definition expand_fields (v : Fields) (pattern : string) : string :=
  let out := ReplaceAll pattern "%timestamp%" (fld_timestamp v) in
  let out := ReplaceAll out "%level%" (fld_level v) in
  let out := ReplaceAll out "%logger%" (fld_logger v) in
  let out := ReplaceAll out "%file%" (fld_file v) in
  let out := ReplaceAll out "%line%" (fld_line v) in
  let out := ReplaceAll out "%function%" (fld_function v) in
  ReplaceAll out "%requestId%" (fld_requestID v).

(** The expanded template: all eight substitutions, no newline yet. *)
Definition expand (v : Fields) (pattern : string) : string :=
  ReplaceAll (expand_fields v pattern) "%message%" (fld_message v).

(** The placeholders [Format] knows. *)
Definition recognized : list string :=
  [ "%timestamp%"; "%level%"; "%logger%"; "%file%"; "%line%"; "%function%";
    "%requestId%"; "%message%" ].

Definition token (name : string) : string := "%" +:+ name +:+ "%".

(** A byte that occurs in no recognized placeholder, such as a space, [|],
    [:] or a bracket. *)
Definition separator (c : ascii) : bool :=
  forallb (λ p, negb (has_byte c p)) recognized.

(** The text is empty or starts with a separator. *)
Definition starts_clear (s : string) : bool :=
  match s with
  | EmptyString => true
  | String c _ => separator c
  end.

(** The text is empty or ends with a separator. *)
Fixpoint ends_clear (s : string) : bool :=
  match s with
  | EmptyString => true
  | String c EmptyString => separator c
  | String _ rest => ends_clear rest
  end.

Fixpoint count_byte (c : ascii) (s : string) : nat :=
  match s with
  | EmptyString => 0
  | String a rest => (if Ascii.eqb a c then 1 else 0) + count_byte c rest
  end.

(** One line: a single newline byte, which is the last byte. *)
Definition single_line (s : string) : bool :=
  (count_byte (ascii_of_nat 10) s =? 1)%nat && ends_with_newline s.


(** The level names that the claim lists. *)
Definition level_names : list string := ["debug"; "info"; "warn"; "error"].

(** The level names of logrus, each with the level it stands for. *)
Definition logrus_level_names : list (string * logrus.Level) :=
  [("panic", logrus.PanicLevel); ("fatal", logrus.FatalLevel);
   ("error", logrus.ErrorLevel); ("warn", logrus.WarnLevel);
   ("warning", logrus.WarnLevel); ("info", logrus.InfoLevel);
   ("debug", logrus.DebugLevel); ("trace", logrus.TraceLevel)].

(** ** Sample inputs and derived calls *)

Definition sample_env : Env :=
  {| fmt_Sprintf := λ m _, m;
     json_Marshal := λ _, Some "{}";
     time_Now_RFC3339 := "2024-05-01T10:00:00Z";
     runtime_Caller3 := ("main.go", 12);
     runtime_Caller2 := Some "main.main";
     log_header := "2024/05/01 10:00:00 Logger.go:148: " |}.

Definition sample_Log : logrus.Logger :=
  {| logrus.Formatter := λ _, Ret ("", None);
     logrus.LoggerLevel := logrus.InfoLevel;
     logrus.ReportCaller := false |}.

(** The text that [Format] substitutes for [%requestId%]. *)
Definition requestID_text (entry : logrus.Entry) : string :=
  match logrus.Data entry !! "requestId" with
  | Some rid => Sprint rid
  | None => "unknown"
  end.

Definition sample_time : time_Time :=
  {| Time_Format := λ _, "2024-05-01 10:00:00"; IsZero := false |}.

Definition sample_zero_time : time_Time :=
  {| Time_Format := λ _, "0001-01-01 00:00:00"; IsZero := true |}.

Definition sample_frame : Frame :=
  {| Function := "pkg.sub.Handler.Process"; File := "/srv/app/handler.go"; Line := 42 |}.

Definition sample_entry (data : gmap string any) (msg : string) : logrus.Entry :=
  {| logrus.Data := data; logrus.Time := sample_time;
     logrus.EntryLevel := logrus.InfoLevel;
     logrus.Caller := Some sample_frame; logrus.Message := msg |}.

Definition sample_formatter (pattern : string) : DynamicFormatter :=
  {| Pattern := pattern; TimestampFormat := "2006-01-02 15:04:05";
     MsgFormatter := Some DefaultMessageFormater;
     FunctionNameFormatter_ := Some DefaultFunctionNameFormatter |}.

Definition sample_site : logrus.Site :=
  {| logrus.site_now := sample_time; logrus.site_caller := Some sample_frame |}.

Definition sample_logger (pattern : string) : logrus.Logger :=
  {| logrus.Formatter := DynamicFormatter_Format (sample_formatter pattern);
     logrus.LoggerLevel := logrus.InfoLevel;
     logrus.ReportCaller := true |}.

(** The entry that [Entry.Info] hands to the formatter. *)
Definition stamped (log : logrus.Logger) (entry : logrus.Entry) (msg : string)
    (site : logrus.Site) : logrus.Entry :=
  {| logrus.Data := logrus.Data entry;
     logrus.Time := if IsZero (logrus.Time entry) then logrus.site_now site
                    else logrus.Time entry;
     logrus.EntryLevel := logrus.InfoLevel;
     logrus.Caller := if logrus.ReportCaller log then logrus.site_caller site
                      else None;
     logrus.Message := msg |}.

(** [WithContext(ctx).Info(msg)] on the package logger. *)
Definition context_info (Log : logrus.Logger) (ctx : Context) (zero : time_Time)
    (site : logrus.Site) (msg : string) : outcome (option string) :=
  entry ← WithContext (Some ctx) zero;
  logrus.Entry_Info Log entry msg site.

(** [WithContext(InjectRequestID(ctx, r)).Info(msg)]. *)
Definition bound_info (Log : logrus.Logger) (ctx : Context) (r : string)
    (zero : time_Time) (site : logrus.Site) (msg : string)
  : outcome (option string) :=
  ctx' ← InjectRequestID (Some ctx) r;
  context_info Log ctx' zero site msg.

(** A formatter with both hooks set, and a logger that formats with [f]. *)
Definition hooked_formatter (pattern tf : string) (mf : MessageFormater)
    (ff : FunctionNameFormatter) : DynamicFormatter :=
  {| Pattern := pattern; TimestampFormat := tf;
     MsgFormatter := Some mf; FunctionNameFormatter_ := Some ff |}.

Definition formatter_logger (f : DynamicFormatter) (lvl : logrus.Level) (rc : bool)
  : logrus.Logger :=
  {| logrus.Formatter := DynamicFormatter_Format f;
     logrus.LoggerLevel := lvl; logrus.ReportCaller := rc |}.

(** ** [Logger.go]: logging with fields, and the destinations *)

(** [strings.Join(elems, sep)]. *)
Fixpoint Join (elems : list string) (sep : string) : string :=
  match elems with
  | [] => ""
  | [e] => e
  | e :: rest => e +:+ sep +:+ Join rest sep
  end.

(** [StdLogger.InfoWithFields].  [ranged] is the sequence in which
    [range fields] yields the entries of the map; Go leaves the order open.
    The method reads no context and calls nothing that panics. *)
Definition StdLogger_InfoWithFields (l : StdLogger) (msg : string)
    (ranged : list (string * any)) (env : Env) (written : list string)
  : list string :=
  if negb (shouldLog l InfoLevel) then written
  else if decide (format l = "json") then
    let entry : gmap string any :=
      <["level" := Str "info"]> (
      <["time" := Str (time_Now_RFC3339 env)]> (
      <["message" := Str msg]> ∅)) in
    let entry := foldl (λ entry kv, <[kv.1 := kv.2]> entry) entry ranged in
    let jsonData := default "" (json_Marshal env entry) in
    Logger_Println env jsonData written
  else
    let parts :=
      foldl (λ parts kv, parts ++ [kv.1 +:+ "=" +:+ Sprint kv.2]) [] ranged in
    Logger_Output env ("[INFO] " +:+ msg +:+ " | " +:+ Join parts ", ") written.

Definition StdLoggerWithContext_InfoWithFields (l : StdLoggerWithContext)
    (msg : string) (ranged : list (string * any)) :=
  StdLogger_InfoWithFields (embedded l) msg ranged.

(** What the file system answers: [None] for success, the error text
    otherwise. *)
Record FS : Type := {
  os_MkdirAll : string → option string;
  os_OpenFile : string → option string
}.

Inductive Writer : Type :=
  | Stdout
  | LogFile (path : string).

(** The destinations [NewLogger] hands to [io.MultiWriter], and what it
    prints on standard error on the way. *)
Definition NewLogger_writers (cfg : Config.t) (fs : FS) : list Writer * list string :=
  let writers := [Stdout] in
  if decide (ToLower (Config.LogType cfg) = "file") then
    match os_MkdirAll fs (Config.LogDir cfg) with
    | Some err => (writers, ["failed to create log dir: " +:+ err +:+ newline])
    | None =>
        match os_OpenFile fs (Config.LogDir cfg +:+ "/app.log") with
        | Some err =>
            (writers,
             ["failed to open log file: " +:+ err
              +:+ ", fallback to stdout only" +:+ newline])
        | None => (writers ++ [LogFile (Config.LogDir cfg +:+ "/app.log")], [])
        end
    end
  else (writers, []).

(** ** [Config.Validate] *)

(** [Config.Validate]: [None] is the nil error. *)
Definition Config_Validate (c : Config.t) (fs : FS) : option string :=
  if decide (Config.LogType c ≠ "console" ∧ Config.LogType c ≠ "file") then
    Some ("invalid log type: " +:+ Config.LogType c)
  else
    let validLevels : gmap string bool :=
      {[ "debug" := true; "info" := true; "warn" := true; "error" := true ]} in
    if negb (default false (validLevels !! Config.LogLevel c)) then
      Some ("invalid log level: " +:+ Config.LogLevel c)
    else if decide (Config.LogFormat c ≠ "text" ∧ Config.LogFormat c ≠ "json") then
      Some ("invalid log format: " +:+ Config.LogFormat c)
    else if decide (Config.LogType c = "file") then
      if decide (Config.LogDir c = "") then
        Some "log directory is required for file logging"
      else
        match os_MkdirAll fs (Config.LogDir c) with
        | Some err => Some ("failed to create log directory: " +:+ err)
        | None => None
        end
    else None.

(** ** [context.go]: the registered message formatter *)

(** The package variable [registeredMessageFormater] starts as the default
    formatter; the two accessors take and return its state. *)
Definition registeredMessageFormater_initial : option MessageFormater :=
  Some DefaultMessageFormater.

Definition RegisterMessageFormater (m : option MessageFormater)
    (registered : option MessageFormater) : option MessageFormater := m.

Definition GetMessageFormater (registered : option MessageFormater)
  : option MessageFormater := registered.

(** ** Further vocabulary *)

(** [f] with another pattern. *)
Definition with_Pattern (f : DynamicFormatter) (pattern : string) : DynamicFormatter :=
  {| Pattern := pattern; TimestampFormat := TimestampFormat f;
     MsgFormatter := MsgFormatter f;
     FunctionNameFormatter_ := FunctionNameFormatter_ f |}.

(** The earlier formatter with the pattern and timestamp format of [f]. *)
Definition legacy_of (f : DynamicFormatter) : Legacy.DynamicFormatter :=
  {| Legacy.Pattern := Pattern f; Legacy.TimestampFormat := TimestampFormat f |}.

(** The entry with the hooks applied to its message and to the function
    name of its caller. *)
Definition hooked_entry (m : MessageFormater) (h : FunctionNameFormatter)
    (entry : logrus.Entry) : logrus.Entry :=
  {| logrus.Data := logrus.Data entry;
     logrus.Time := logrus.Time entry;
     logrus.EntryLevel := logrus.EntryLevel entry;
     logrus.Caller :=
       (λ c, {| Function := FunctionNameFormatter_Format h (Function c);
                File := File c; Line := Line c |}) <$> logrus.Caller entry;
     logrus.Message := MessageFormater_Format m (logrus.Message entry) |}.

(** The object that [StdLogger.log] serializes in structured mode. *)
Definition log_object (levelStr formatted : string) (requestID : any) (env : Env)
  : gmap string any :=
  <["level" := Str levelStr]> (
  <["time" := Str (time_Now_RFC3339 env)]> (
  <["message" := Str formatted]> (
  <["file" := Str (runtime_Caller3 env).1]> (
  <["function" := Str (default "unknown" (runtime_Caller2 env))]> (
  <["line" := Int (runtime_Caller3 env).2]> (
  <["requestID" := requestID]> ∅)))))).

(** The pattern [Init] falls back to. *)
Definition fallback_pattern : string :=
  "%timestamp% | %level% | %requestId% | %file%:%line% | %function% | %message%".

(** [renders f entry placeholder value]: wherever [placeholder] stands
    between clear edges in the pattern, [Format] returns the line with
    [value] in its place, between the expansions of what comes before and
    after. *)
Definition renders (f : DynamicFormatter) (entry : logrus.Entry)
    (placeholder value : string) : Prop :=
  ∀ pre post,
    ends_clear pre = true → starts_clear post = true →
    ∃ v,
      record_fields f entry = Ret v ∧
      DynamicFormatter_Format (with_Pattern f (pre +:+ placeholder +:+ post)) entry
      = Ret (expand v pre +:+ value +:+ expand v post +:+ newline, None).

Definition sample_fs : FS :=
  {| os_MkdirAll := λ _, None; os_OpenFile := λ _, None |}.

(** * Properties *)

(** ** Facts about strings *)

Section string_facts.

Lemma app_cons (c : ascii) (s t : string) :
  String c s +:+ t = String c (s +:+ t).
Proof. reflexivity. Qed.

Lemma app_empty_l (s : string) : "" +:+ s = s.
Proof. reflexivity. Qed.

Lemma app_empty_r (s : string) : s +:+ "" = s.
Proof. induction s as [|c s IH]; [reflexivity|]. by rewrite app_cons, IH. Qed.

Lemma app_assoc (s t u : string) : (s +:+ t) +:+ u = s +:+ (t +:+ u).
Proof.
  induction s as [|c s IH]; [reflexivity|]. by rewrite !app_cons, IH.
Qed.

Lemma has_byte_app (c : ascii) (s t : string) :
  has_byte c (s +:+ t) = (has_byte c s || has_byte c t)%bool.
Proof.
  induction s as [|a s IH]; [reflexivity|].
  rewrite app_cons. simpl. by destruct (Ascii.eqb a c).
Qed.

End string_facts.

(** ** Splitting at a one-byte separator *)

Section split_byte.
Variable d : ascii.

Let sep : string := String d "".

Lemma split_byte_step (cur : string) (c : ascii) (s : string) :
  split_from sep 0 cur (String c s) =
    if Ascii.eqb d c then cur :: split_from sep 0 "" s
    else split_from sep 0 (cur +:+ String c "") s.
Proof.
  subst sep. simpl. unfold HasPrefix. simpl.
  destruct (ascii_dec d c) as [->|Hne].
  - rewrite Ascii.eqb_refl. by destruct s.
  - apply Ascii.eqb_neq in Hne. by rewrite Hne.
Qed.

Lemma split_byte_free (s cur : string) :
  has_byte d s = false → split_from sep 0 cur s = [cur +:+ s].
Proof.
  revert cur. induction s as [|c s IH]; intros cur Hs.
  - by rewrite app_empty_r.
  - rewrite split_byte_step. simpl in Hs.
    destruct (Ascii.eqb c d) eqn:Hcd; [done|].
    rewrite Ascii.eqb_sym, Hcd, (IH _ Hs), app_assoc. reflexivity.
Qed.

Lemma split_byte_nonempty (s cur : string) : split_from sep 0 cur s ≠ [].
Proof.
  revert cur. induction s as [|c s IH]; intros cur; [done|].
  rewrite split_byte_step. destruct (Ascii.eqb d c); [done|apply IH].
Qed.

Lemma last_cons_nonempty {A} (x : A) (l : list A) : l ≠ [] → last (x :: l) = last l.
Proof. by destruct l. Qed.

Lemma split_byte_last (pre suf cur : string) :
  has_byte d suf = false →
  last (split_from sep 0 cur (pre +:+ String d suf)) = Some suf.
Proof.
  intros Hsuf. revert cur. induction pre as [|c pre IH]; intros cur.
  - rewrite app_empty_l, split_byte_step, Ascii.eqb_refl.
    by rewrite (split_byte_free _ _ Hsuf).
  - rewrite app_cons, split_byte_step. destruct (Ascii.eqb d c).
    + rewrite last_cons_nonempty by apply split_byte_nonempty. apply IH.
    + apply IH.
Qed.

End split_byte.

(** Every name is free of dots or has a last dot. *)
Lemma last_dot_cases (d : ascii) (s : string) :
  has_byte d s = false ∨
  ∃ pre suf, s = pre +:+ String d suf ∧ has_byte d suf = false.
Proof.
  induction s as [|c s IH]; [by left|].
  destruct IH as [Hfree|(pre & suf & -> & Hsuf)].
  - simpl. destruct (Ascii.eqb c d) eqn:Hcd; [|by left].
    apply Ascii.eqb_eq in Hcd as ->. right. by exists "", s.
  - right. by exists (String c pre), suf.
Qed.

(** C7.  The default function-name formatter returns the text after the last
    dot of the name it is given: a name [pre.suf] whose [suf] has no dot is
    reduced to [suf], a name without a dot is returned unchanged, and
    [pkg.sub.Handler.Process] is reduced to [Process].  So for every name
    the result has no dot and is the whole name or what follows a dot at its
    end. *)
Theorem default_function_name_last_segment :
  (∀ pre suf : string,
      has_byte "." suf = false →
      DefaultFunctionNameFormatter_Format (pre +:+ "." +:+ suf) = suf) ∧
  (∀ name : string,
      has_byte "." name = false →
      DefaultFunctionNameFormatter_Format name = name) ∧
  (∀ name : string,
      has_byte "." (DefaultFunctionNameFormatter_Format name) = false ∧
      (name = DefaultFunctionNameFormatter_Format name ∨
       ∃ pre, name = pre +:+ "." +:+ DefaultFunctionNameFormatter_Format name)) ∧
  DefaultFunctionNameFormatter_Format "pkg.sub.Handler.Process" = "Process".
Proof.
  assert (∀ pre suf : string,
             has_byte "." suf = false →
             DefaultFunctionNameFormatter_Format (pre +:+ "." +:+ suf) = suf)
    as Hlast.
  { intros pre suf Hsuf. unfold DefaultFunctionNameFormatter_Format, Split.
    change ("." +:+ suf) with (String "." suf).
    by rewrite (split_byte_last "." pre suf "" Hsuf). }
  assert (∀ name : string,
             has_byte "." name = false →
             DefaultFunctionNameFormatter_Format name = name) as Hfree.
  { intros name Hname. unfold DefaultFunctionNameFormatter_Format, Split.
    by rewrite (split_byte_free "." name "" Hname). }
  split; [done|]. split; [done|]. split; [|reflexivity].
  intros name. destruct (last_dot_cases "." name) as [Hname|(pre & suf & -> & Hsuf)].
  - rewrite (Hfree _ Hname). by split; [|left].
  - change (String "." suf) with ("." +:+ suf). rewrite (Hlast _ _ Hsuf).
    split; [done|]. right. by exists pre.
Qed.

Lemma default_function_name_last_segment_witness :
  DefaultFunctionNameFormatter_Format ("github.com/acme/api.(*Server)" +:+ "." +:+ "Serve") = "Serve" ∧
  DefaultFunctionNameFormatter_Format "main" = "main".
Proof.
  destruct default_function_name_last_segment as (Hlast & Hnone & _).
  split; [apply Hlast; reflexivity | apply Hnone; reflexivity].
Defined.

(** ** Facts about the replacement scan *)

Section replace_facts.
Variables old new : string.

Lemma prefix_empty (s : string) : HasPrefix s "" = true.
Proof. by destruct s. Qed.

Lemma prefix_cons (c o : ascii) (s p : string) :
  HasPrefix (String c s) (String o p) =
    if Ascii.eqb o c then HasPrefix s p else false.
Proof.
  unfold HasPrefix. simpl. destruct (ascii_dec o c) as [->|Hne].
  - by rewrite Ascii.eqb_refl.
  - apply Ascii.eqb_neq in Hne. by rewrite Hne.
Qed.

Lemma prefix_app_same (p t : string) : HasPrefix (p +:+ t) p = true.
Proof.
  induction p as [|c p IH]; [apply prefix_empty|].
  by rewrite app_cons, prefix_cons, Ascii.eqb_refl.
Qed.


Lemma prefix_length (p s : string) :
  HasPrefix s p = true → (String.length p ≤ String.length s)%nat.
Proof.
  revert s. induction p as [|o p IH]; intros s Hp; simpl; [lia|].
  destruct s as [|c s]; [done|]. rewrite prefix_cons in Hp.
  destruct (Ascii.eqb o c); [|done]. specialize (IH _ Hp). simpl. lia.
Qed.

(** A byte that does not occur in [p] cuts every candidate occurrence. *)
Lemma prefix_app_sep (c : ascii) (p a b : string) :
  has_byte c p = false →
  HasPrefix (a +:+ String c b) p = HasPrefix a p.
Proof.
  revert a. induction p as [|o p IH]; intros a Hc.
  - by rewrite !prefix_empty.
  - simpl in Hc. destruct (Ascii.eqb o c) eqn:Hoc; [done|].
    destruct a as [|x a].
    + by rewrite app_empty_l, prefix_cons, Hoc.
    + rewrite app_cons, !prefix_cons. destruct (Ascii.eqb o x); [by apply IH|done].
Qed.

Lemma replace_skip (p t : string) :
  replace_from old new (String.length p) (p +:+ t) = replace_from old new 0 t.
Proof. induction p as [|c p IH]; [reflexivity|]. by rewrite app_cons. Qed.

Lemma replace_step (c : ascii) (s : string) :
  replace_from old new 0 (String c s) =
    if HasPrefix (String c s) old
    then new +:+ replace_from old new (String.length old - 1) s
    else String c (replace_from old new 0 s).
Proof. reflexivity. Qed.

Lemma nonempty_cons (p : string) : p ≠ "" → ∃ o q, p = String o q.
Proof. destruct p as [|o q]; [done|eauto]. Qed.

(** At an occurrence the scan emits [new] and resumes behind it. *)
Lemma replace_match (t : string) :
  old ≠ "" →
  replace_from old new 0 (old +:+ t) = new +:+ replace_from old new 0 t.
Proof.
  intros Hold. destruct (nonempty_cons old Hold) as (o & p & E).
  assert (old +:+ t = String o (p +:+ t)) as Ecat by (by rewrite E).
  rewrite Ecat, replace_step, <- Ecat, prefix_app_same.
  replace (String.length old - 1)%nat with (String.length p)
    by (rewrite E; simpl; lia).
  by rewrite replace_skip.
Qed.

Lemma replace_absent (s : string) :
  Contains s old = false → replace_from old new 0 s = s.
Proof.
  induction s as [|c s IH]; [done|]. intros Hs. simpl in Hs.
  rewrite replace_step. destruct (HasPrefix (String c s) old); [done|].
  by rewrite IH.
Qed.

Lemma ReplaceAll_nonempty (s : string) :
  old ≠ "" → ReplaceAll s old new = replace_from old new 0 s.
Proof.
  intros Hold. destruct (nonempty_cons old Hold) as (o & p & E).
  unfold ReplaceAll. by rewrite E.
Qed.

Lemma ReplaceAll_empty (s : string) : old = "" → ReplaceAll s old new = s.
Proof. intros E. unfold ReplaceAll. by rewrite E. Qed.

Lemma ReplaceAll_absent (s : string) :
  Contains s old = false → ReplaceAll s old new = s.
Proof.
  intros Hs. destruct (decide (old = "")) as [E|Hold].
  - by apply ReplaceAll_empty.
  - rewrite ReplaceAll_nonempty by done. by apply replace_absent.
Qed.

Lemma replace_sep (c : ascii) (b : string) :
  old ≠ "" → has_byte c old = false →
  ∀ (a : string) (k : nat), (k ≤ String.length a)%nat →
    replace_from old new k (a +:+ String c b) =
      replace_from old new k a +:+ String c (replace_from old new 0 b).
Proof.
  intros Hold Hc. induction a as [|x a IH]; intros k Hk.
  - simpl in Hk. assert (k = 0%nat) as -> by lia.
    rewrite app_empty_l, replace_step.
    destruct (nonempty_cons old Hold) as (o & p & E).
    assert (HasPrefix (String c b) old = false) as ->; [|done].
    rewrite E, prefix_cons. rewrite E in Hc. simpl in Hc.
    by destruct (Ascii.eqb o c).
  - rewrite app_cons. destruct k as [|k].
    + rewrite !replace_step, <- app_cons, (prefix_app_sep c old _ b Hc).
      destruct (HasPrefix (String x a) old) eqn:Hp.
      * apply prefix_length in Hp. simpl in Hp.
        rewrite IH by lia. by rewrite app_assoc.
      * rewrite IH by lia. by rewrite app_cons.
    + simpl in Hk. simpl. apply IH. lia.
Qed.

(** Replacement works on each side of a byte that [old] does not have. *)
Lemma ReplaceAll_sep (c : ascii) (a b : string) :
  has_byte c old = false →
  ReplaceAll (a +:+ String c b) old new =
    ReplaceAll a old new +:+ String c (ReplaceAll b old new).
Proof.
  intros Hc. destruct (decide (old = "")) as [E|Hold].
  - by rewrite !ReplaceAll_empty.
  - rewrite !ReplaceAll_nonempty by done. apply replace_sep; [done..|lia].
Qed.

End replace_facts.

(** ** Lower-casing *)

Lemma lower_upper_byte (c : ascii) : lower_byte (upper_byte c) = lower_byte c.
Proof. by destruct c as [[] [] [] [] [] [] [] []]. Qed.

Lemma lower_lower_byte (c : ascii) : lower_byte (lower_byte c) = lower_byte c.
Proof. by destruct c as [[] [] [] [] [] [] [] []]. Qed.

Lemma beyond_ascii_eqb (b x : ascii) :
  Nat.leb 128 (nat_of_ascii b) = true → (nat_of_ascii x < 128)%nat →
  Ascii.eqb b x = false.
Proof.
  intros Hb Hx. apply Ascii.eqb_neq. intros ->. apply Nat.leb_le in Hb. lia.
Qed.

Lemma eqb_upper_byte (b c : ascii) :
  Nat.leb 128 (nat_of_ascii b) = true →
  Ascii.eqb b (upper_byte c) = Ascii.eqb b c.
Proof.
  intros Hb. unfold upper_byte.
  destruct (Nat.leb 97 (nat_of_ascii c) && Nat.leb (nat_of_ascii c) 122)%bool eqn:E;
    [|done].
  apply andb_true_iff in E as [H1 H2].
  apply Nat.leb_le in H1, H2.
  rewrite !beyond_ascii_eqb; try done; [lia|].
  rewrite nat_ascii_embedding; lia.
Qed.

Lemma eqb_lower_byte (b c : ascii) :
  Nat.leb 128 (nat_of_ascii b) = true →
  Ascii.eqb b (lower_byte c) = Ascii.eqb b c.
Proof.
  intros Hb. unfold lower_byte.
  destruct (Nat.leb 65 (nat_of_ascii c) && Nat.leb (nat_of_ascii c) 90)%bool eqn:E;
    [|done].
  apply andb_true_iff in E as [H1 H2].
  apply Nat.leb_le in H1, H2.
  rewrite !beyond_ascii_eqb; try done; [lia|].
  rewrite nat_ascii_embedding; lia.
Qed.

Lemma prefix_ToUpper (p s : string) :
  beyond_ascii p = true → HasPrefix (ToUpper s) p = HasPrefix s p.
Proof.
  revert s. induction p as [|b p IH]; intros s Hp.
  - by rewrite !prefix_empty.
  - simpl in Hp. apply andb_true_iff in Hp as [Hb Hp].
    destruct s as [|c s]; [done|]. unfold ToUpper in *. simpl map_bytes.
    rewrite !prefix_cons, eqb_upper_byte by done.
    destruct (Ascii.eqb b c); [by apply IH|done].
Qed.

Lemma lower_step (c : ascii) (s : string) :
  lower_from 0 (String c s) =
    if HasPrefix (String c s) capital_I_with_dot then String "i" (lower_from 1 s)
    else if HasPrefix (String c s) kelvin_sign then String "k" (lower_from 2 s)
    else String (lower_byte c) (lower_from 0 s).
Proof. reflexivity. Qed.

Lemma lower_from_ToUpper (s : string) (k : nat) :
  lower_from k (ToUpper s) = lower_from k s.
Proof.
  revert k. induction s as [|c s IH]; intros k; [done|].
  change (ToUpper (String c s)) with (String (upper_byte c) (ToUpper s)).
  destruct k as [|k]; [|apply IH].
  rewrite !lower_step.
  change (String (upper_byte c) (ToUpper s)) with (ToUpper (String c s)).
  rewrite !prefix_ToUpper by done.
  by rewrite !IH, lower_upper_byte.
Qed.

Lemma ToLower_ToUpper (s : string) : ToLower (ToUpper s) = ToLower s.
Proof. apply lower_from_ToUpper. Qed.

Lemma lower_keeps_prefix (p s : string) :
  beyond_ascii p = true →
  HasPrefix (lower_from 0 s) p = true → HasPrefix s p = true.
Proof.
  revert s. induction p as [|b p IH]; intros s Hp Hpre.
  - apply prefix_empty.
  - simpl in Hp. apply andb_true_iff in Hp as [Hb Hp].
    destruct s as [|c s]; [done|]. rewrite lower_step in Hpre.
    destruct (HasPrefix (String c s) capital_I_with_dot).
    { rewrite prefix_cons, (beyond_ascii_eqb b "i" Hb) in Hpre; [done|].
      by apply Nat.ltb_lt. }
    destruct (HasPrefix (String c s) kelvin_sign).
    { rewrite prefix_cons, (beyond_ascii_eqb b "k" Hb) in Hpre; [done|].
      by apply Nat.ltb_lt. }
    rewrite prefix_cons, eqb_lower_byte in Hpre by done.
    rewrite prefix_cons. destruct (Ascii.eqb b c); [by apply IH|done].
Qed.

Lemma lower_from_lower (s : string) (k : nat) :
  lower_from 0 (lower_from k s) = lower_from k s.
Proof.
  revert k. induction s as [|c s IH]; intros k; [done|].
  destruct k as [|k]; [|apply IH].
  destruct (HasPrefix (String c s) capital_I_with_dot) eqn:Hi;
    [|destruct (HasPrefix (String c s) kelvin_sign) eqn:Hk].
  - rewrite lower_step, Hi, lower_step. by rewrite IH.
  - rewrite lower_step, Hi, Hk, lower_step. by rewrite IH.
  - assert (∀ p, beyond_ascii p = true → HasPrefix (String c s) p = false →
                 HasPrefix (lower_from 0 (String c s)) p = false) as Hno.
    { intros p Hp Hs. destruct (HasPrefix (lower_from 0 (String c s)) p) eqn:E;
        [|done]. apply lower_keeps_prefix in E; [|done]. by rewrite E in Hs. }
    pose proof (Hno capital_I_with_dot eq_refl Hi) as Hi'.
    pose proof (Hno kelvin_sign eq_refl Hk) as Hk'.
    rewrite lower_step, Hi, Hk in Hi', Hk' |- *.
    by rewrite lower_step, Hi', Hk', IH, lower_lower_byte.
Qed.

Lemma ToLower_ToLower (s : string) : ToLower (ToLower s) = ToLower s.
Proof. apply lower_from_lower. Qed.

(** The two runes beyond ASCII that lower-case to an ASCII letter are
    folded, in any position and next to ASCII capitals. *)
Lemma ToLower_folds_runes :
  ToLower ("warn" +:+ capital_I_with_dot +:+ "ng") = "warning" ∧
  ToLower ("F" +:+ capital_I_with_dot +:+ "LE") = "file" ∧
  ToLower (kelvin_sign +:+ "elvin") = "kelvin" ∧
  ToLower "DEBUG" = "debug".
Proof. by vm_compute. Qed.

(** ** The level gate of [StdLogger] *)

Ltac not_listed :=
  let H := fresh in
  intros H; repeat (apply elem_of_cons in H as [H|H]; [discriminate H|]);
  by apply elem_of_nil in H.

Section level_gate.
Variables (l : StdLogger) (levelStr msg : string) (args : list any).
Variables (env : Env) (written : list string).

Lemma log_gate_shut (level : LogLevel) (ctx : option Context) :
  shouldLog l level = false →
  StdLogger_log l level levelStr msg ctx args env written = Ret written.
Proof. intros Hgate. unfold StdLogger_log. by rewrite Hgate. Qed.

Lemma log_gate_open (level : LogLevel) (c : Context) :
  shouldLog l level = true →
  ∃ record,
    StdLogger_log l level levelStr msg (Some c) args env written
    = Ret (written ++ [record]).
Proof.
  intros Hgate. unfold StdLogger_log. rewrite Hgate. simpl.
  destruct (decide (format l = "json")); eexists; reflexivity.
Qed.

Lemma log_nil_context (level : LogLevel) :
  shouldLog l level = true →
  StdLogger_log l level levelStr msg None args env written
  = Panic nil_dereference.
Proof. intros Hgate. unfold StdLogger_log. by rewrite Hgate. Qed.

End level_gate.

Lemma parseLogLevel_level_name (m : Severity) :
  parseLogLevel (level_name m) = level_of m.
Proof. by destruct m. Qed.

Lemma shouldLog_severity (l : StdLogger) (s m : Severity) :
  currentLevel l = level_of m →
  shouldLog l (level_of s) = true ↔ severity_le m s.
Proof.
  intros Hmin. unfold shouldLog, severity_le. rewrite Hmin.
  destruct s, m; vm_compute; split; intros H; try done; try lia;
    repeat (apply le_S_n in H || inversion H).
Qed.

Lemma bound_call_unfold (s : Severity) (l : StdLogger) (c : Context)
    (msg : string) (args : list any) (env : Env) (written : list string) :
  StdLoggerWithContext_call s (StdLogger_WithContext l (Some c)) msg args env written
  = StdLogger_log l (level_of s) (level_name s) msg (Some c) args env written.
Proof. by destruct s. Qed.

Lemma plain_call_unfold (s : Severity) (l : StdLogger)
    (msg : string) (args : list any) (env : Env) (written : list string) :
  StdLogger_call s l msg args env written
  = StdLogger_log l (level_of s) (level_name s) msg None args env written.
Proof. by destruct s. Qed.

(** C1.  With the minimum severity [m] configured, the gate lets a call at
    severity [s] pass if and only if [s] is at or above [m] in the order
    Debug < Info < Warn < Error.  A call below the minimum writes nothing,
    on a plain logger as on a bound one; a call of a context-bound logger at
    or above the minimum writes one record.  On a plain logger the second
    half of the claim fails: a [Debug], [Info], [Warn] or [Error] call at or
    above the minimum passes the gate, hands the nil context to [log] and
    panics there, so it writes no record, whatever its severity. *)
Theorem level_gate_emits_iff_at_or_above (s m : Severity) (cfg : Config.t) :
  Config.LogLevel cfg = level_name m →
  let l := NewLogger cfg in
  (shouldLog l (level_of s) = true ↔ severity_le m s) ∧
  (∀ c msg args env written,
      (∃ record,
          StdLoggerWithContext_call s (StdLogger_WithContext l (Some c))
            msg args env written = Ret (written ++ [record]))
      ↔ severity_le m s) ∧
  (∀ c msg args env written,
      StdLoggerWithContext_call s (StdLogger_WithContext l (Some c))
        msg args env written = Ret written
      ↔ ¬ severity_le m s) ∧
  (∀ msg args env written,
      ¬ severity_le m s → StdLogger_call s l msg args env written = Ret written) ∧
  (∀ msg args env written,
      severity_le m s →
      StdLogger_call s l msg args env written = Panic nil_dereference) ∧
  (∀ msg args env written record,
      StdLogger_call s l msg args env written ≠ Ret (written ++ [record])).
Proof.
  intros Hcfg l.
  assert (currentLevel l = level_of m) as Hmin.
  { subst l. unfold NewLogger. simpl. by rewrite Hcfg, parseLogLevel_level_name. }
  pose proof (shouldLog_severity l s m Hmin) as Hgate.
  split; [done|]. split; [|split; [|split; [|split]]].
  - intros c msg args env written. rewrite bound_call_unfold. split.
    + intros [record Hrec]. apply Hgate.
      destruct (shouldLog l (level_of s)) eqn:Hs; [done|].
      rewrite (log_gate_shut _ _ _ _ _ _ _ _ Hs) in Hrec.
      injection Hrec as Hrec. apply (f_equal length) in Hrec.
      rewrite length_app in Hrec. simpl in Hrec. lia.
    + intros Hle. apply Hgate in Hle. by apply log_gate_open.
  - intros c msg args env written. rewrite bound_call_unfold. split.
    + intros Hret Hle. apply Hgate in Hle.
      destruct (log_gate_open l (level_name s) msg args env written _ c Hle)
        as [record Hrec].
      rewrite Hrec in Hret. injection Hret as Hret.
      apply (f_equal length) in Hret. rewrite length_app in Hret.
      simpl in Hret. lia.
    + intros Hlt. apply log_gate_shut.
      destruct (shouldLog l (level_of s)) eqn:Hs; [|done].
      by destruct Hlt; apply Hgate.
  - intros msg args env written Hlt. rewrite plain_call_unfold.
    apply log_gate_shut.
    destruct (shouldLog l (level_of s)) eqn:Hs; [|done].
    by destruct Hlt; apply Hgate.
  - intros msg args env written Hle. rewrite plain_call_unfold.
    apply log_nil_context. by apply Hgate.
  - intros msg args env written record. rewrite plain_call_unfold.
    destruct (shouldLog l (level_of s)) eqn:Hs.
    + by rewrite (log_nil_context _ _ _ _ _ _ _ Hs).
    + rewrite (log_gate_shut _ _ _ _ _ _ _ _ Hs). intros Hrec.
      injection Hrec as Hrec. apply (f_equal length) in Hrec.
      rewrite length_app in Hrec. simpl in Hrec. lia.
Qed.

Lemma level_gate_emits_iff_at_or_above_witness :
  (shouldLog (NewLogger DefaultConfig) (level_of Warn) = true ↔ severity_le Info Warn) ∧
  StdLogger_call Debug (NewLogger DefaultConfig) "x" [] sample_env [] = Ret [] ∧
  StdLogger_call Warn (NewLogger DefaultConfig) "x" [] sample_env []
    = Panic nil_dereference.
Proof.
  pose proof (level_gate_emits_iff_at_or_above Warn Info DefaultConfig eq_refl)
    as (Hgate & _ & _ & _ & Hpanic & _).
  pose proof (level_gate_emits_iff_at_or_above Debug Info DefaultConfig eq_refl)
    as (_ & _ & _ & Hplain & _).
  split; [exact Hgate|]. split.
  - apply Hplain. unfold severity_le. simpl. lia.
  - apply Hpanic. unfold severity_le. simpl. lia.
Defined.

(** C2.  A plain [StdLogger] passes a nil context to [log], and [log] calls
    [ctx.Value] on it: every facade call that the gate lets through panics
    instead of returning, and so does [Info] on the default logger.  The
    bound logger, whose [log] replaces a nil context by its own, returns. *)
Theorem plain_logger_call_panics :
  (∀ (s : Severity) (l : StdLogger) msg args env written,
      shouldLog l (level_of s) = true →
      StdLogger_call s l msg args env written = Panic nil_dereference) ∧
  (∀ msg args env written,
      StdLogger_Info DefaultLogger msg args env written = Panic nil_dereference) ∧
  (∀ (c : Context) msg args env written,
      ∃ record,
        StdLoggerWithContext_log (StdLogger_WithContext DefaultLogger (Some c))
          InfoLevel "info" msg None args env written
        = Ret (written ++ [record])).
Proof.
  split; [|split].
  - intros s l msg args env written Hgate. rewrite plain_call_unfold.
    by apply log_nil_context.
  - reflexivity.
  - intros c msg args env written. unfold StdLoggerWithContext_log. simpl.
    by apply log_gate_open.
Qed.

Lemma plain_logger_call_panics_witness :
  StdLogger_call Error (NewLogger DefaultConfig) "disk full" [] sample_env []
  = Panic nil_dereference.
Proof.
  destruct plain_logger_call_panics as (Hpanic & _).
  apply Hpanic. reflexivity.
Defined.

(** The formatter that [Init] installs has no function-name hook, and [Init]
    makes the logger report callers: formatting an entry that carries its
    caller panics as well. *)
Lemma Init_formatter_panics_on_caller (loaded : option LogConfig)
    (m : MessageFormater) (Log : logrus.Logger) (entry : logrus.Entry)
    (caller : Frame) :
  logrus.Caller entry = Some caller →
  logrus.Formatter (Init loaded (Some m) Log).1 entry = Panic nil_dereference ∧
  logrus.ReportCaller (Init loaded (Some m) Log).1 = true.
Proof.
  intros Hcaller. split; [|reflexivity].
  unfold Init. simpl. unfold DynamicFormatter_Format. simpl. by rewrite Hcaller.
Qed.

(** ** Level names *)

Lemma parseLogLevel_unlisted (level : string) :
  ToLower level ∉ level_names → parseLogLevel level = InfoLevel.
Proof.
  intros Hno. unfold parseLogLevel, level_names in *.
  repeat case_decide; try reflexivity; exfalso; apply Hno;
    match goal with H : ToLower level = _ |- _ => rewrite H end;
    repeat ((by left) || right).
Qed.

Lemma Init_no_error (loaded : option LogConfig) (reg : option MessageFormater)
    (Log : logrus.Logger) :
  (Init loaded reg Log).2 = None.
Proof. reflexivity. Qed.

Lemma parseLogLevel_named (level : string) (s : Severity) :
  ToLower level = level_name s → parseLogLevel level = level_of s.
Proof. intros Hname. unfold parseLogLevel. rewrite Hname. by destruct s. Qed.

Lemma ParseLevel_named (lvl : string) (L : logrus.Level) :
  logrus.ParseLevel lvl = Some L ↔ (ToLower lvl, L) ∈ logrus_level_names.
Proof.
  unfold logrus.ParseLevel, logrus_level_names.
  rewrite !elem_of_cons, elem_of_nil.
  generalize (ToLower lvl). intros name. split.
  - intros Hparse.
    repeat (destruct (decide _) as [->|_];
            [injection Hparse as <-; tauto|]).
    discriminate Hparse.
  - intros Hin.
    repeat (destruct Hin as [[= -> ->]|Hin]; [reflexivity|]).
    destruct Hin.
Qed.

Lemma ParseLevel_unnamed (lvl : string) :
  logrus.ParseLevel lvl = None ↔ ToLower lvl ∉ logrus_level_names.*1.
Proof.
  split.
  - intros Hnone Hin. apply list_elem_of_fmap in Hin as ([name L] & Hname & Hin).
    simpl in Hname. subst name. apply ParseLevel_named in Hin. congruence.
  - intros Hno. destruct (logrus.ParseLevel lvl) as [L|] eqn:Hparse; [|done].
    destruct Hno. apply ParseLevel_named in Hparse.
    apply list_elem_of_fmap. by exists (ToLower lvl, L).
Qed.

(** C8, as the code has it.  A level string that the parser in use does not
    recognise gives the minimum level Info, and construction does not fail.
    [NewLogger] parses with [parseLogLevel], which recognises the strings
    that [strings.ToLower] maps to debug, info, warn or error, and gives
    Info for every other string.  [Init] takes the level that
    [logrus.ParseLevel] returns, which recognises the strings that
    [strings.ToLower] maps to panic, fatal, error, warn, warning, info,
    debug or trace, parses a string like its lower-cased form, and returns
    an error for exactly the other strings; [Init] takes Info on that error,
    as well as when the configuration could not be loaded, and always
    returns a nil error. *)
Theorem unrecognised_level_defaults_to_info :
  (∀ cfg : Config.t,
      ToLower (Config.LogLevel cfg) ∉ level_names →
      currentLevel (NewLogger cfg) = InfoLevel) ∧
  (∀ (cfg : LogConfig) reg Log,
      logrus.ParseLevel (cfg_Level cfg) = None →
      logrus.LoggerLevel (Init (Some cfg) reg Log).1 = logrus.InfoLevel) ∧
  (∀ reg Log, logrus.LoggerLevel (Init None reg Log).1 = logrus.InfoLevel) ∧
  (∀ loaded reg Log, (Init loaded reg Log).2 = None) ∧
  (∀ (cfg : Config.t) (s : Severity),
      ToLower (Config.LogLevel cfg) = level_name s →
      currentLevel (NewLogger cfg) = level_of s) ∧
  (∀ (lvl : string) (L : logrus.Level),
      logrus.ParseLevel lvl = Some L ↔ (ToLower lvl, L) ∈ logrus_level_names) ∧
  (∀ lvl : string,
      logrus.ParseLevel lvl = None ↔ ToLower lvl ∉ logrus_level_names.*1) ∧
  (∀ lvl : string, logrus.ParseLevel (ToLower lvl) = logrus.ParseLevel lvl) ∧
  (∀ (cfg : LogConfig) reg Log (L : logrus.Level),
      logrus.ParseLevel (cfg_Level cfg) = Some L →
      logrus.LoggerLevel (Init (Some cfg) reg Log).1 = L).
Proof.
  split_and!.
  - intros cfg Hno. unfold NewLogger. simpl. by apply parseLogLevel_unlisted.
  - intros cfg reg Log Hparse. unfold Init. simpl. by rewrite Hparse.
  - reflexivity.
  - apply Init_no_error.
  - intros cfg s Hname. unfold NewLogger. simpl. by apply parseLogLevel_named.
  - apply ParseLevel_named.
  - apply ParseLevel_unnamed.
  - intros lvl. unfold logrus.ParseLevel. by rewrite ToLower_ToLower.
  - intros cfg reg Log L Hparse. unfold Init. simpl. by rewrite Hparse.
Qed.

Lemma unrecognised_level_defaults_to_info_witness :
  currentLevel (NewLogger {| Config.LogType := "console"; Config.LogDir := "./logs";
                             Config.LogLevel := "verbose"; Config.LogFormat := "text" |})
    = InfoLevel ∧
  logrus.LoggerLevel
    (Init (Some {| cfg_TimestampFormat := "15:04:05"; cfg_Pattern := "%message%";
                   cfg_Level := "verbose" |}) (Some DefaultMessageFormater) sample_Log).1
    = logrus.InfoLevel ∧
  currentLevel (NewLogger {| Config.LogType := "console"; Config.LogDir := "./logs";
                             Config.LogLevel := "Error"; Config.LogFormat := "text" |})
    = level_of Error ∧
  logrus.LoggerLevel
    (Init (Some {| cfg_TimestampFormat := "15:04:05"; cfg_Pattern := "%message%";
                   cfg_Level := "WARN" +:+ capital_I_with_dot +:+ "NG" |})
       (Some DefaultMessageFormater) sample_Log).1
    = logrus.WarnLevel.
Proof.
  destruct unrecognised_level_defaults_to_info
    as (Hstd & Hinit & _ & _ & Hnamed & _ & _ & _ & Hlevel).
  split_and!.
  - apply Hstd. simpl. not_listed.
  - apply Hinit. reflexivity.
  - apply Hnamed. reflexivity.
  - apply Hlevel. reflexivity.
Defined.

(** C8 as stated fails: [DEBUG] is none of the four listed names and yet the
    minimum becomes Debug, and [trace], which [logrus.ParseLevel] knows,
    makes [Init] set the Trace level. *)
Lemma unlisted_level_not_info :
  ("DEBUG" ∉ level_names) ∧
  currentLevel (NewLogger {| Config.LogType := "console"; Config.LogDir := "./logs";
                             Config.LogLevel := "DEBUG"; Config.LogFormat := "text" |})
    = DebugLevel ∧
  DebugLevel ≠ InfoLevel ∧
  ("trace" ∉ level_names) ∧
  logrus.LoggerLevel
    (Init (Some {| cfg_TimestampFormat := "15:04:05"; cfg_Pattern := "%message%";
                   cfg_Level := "trace" |}) (Some DefaultMessageFormater) sample_Log).1
    = logrus.TraceLevel.
Proof.
  split; [not_listed|]. split; [reflexivity|]. split; [done|].
  split; [not_listed|reflexivity].
Qed.

(** ** The correlation ID on a context chain *)

Lemma Value_not_injected (c : Context) :
  injected c = false → Context_Value c requestIDKey = Nil.
Proof.
  induction c as [|parent IH k val|parent IH]; simpl; [done| |done].
  destruct (decide (k = requestIDKey)); [done|apply IH].
Qed.

Lemma GetRequestID_injected (c : Context) (r : string) :
  GetRequestID (Some (valueCtx c requestIDKey (Str r))) = Ret r.
Proof. reflexivity. Qed.

(** C5.  Injecting a correlation ID into a context returns a derived context
    that resolves to that ID and agrees with the given context on every
    other key; the given context is left as it was, so an ID injected
    earlier still resolves on it (the new binding shadows, it does not
    overwrite); and a context on whose chain no ID was injected resolves to
    the sentinel [unknown]. *)
Theorem inject_resolve_round_trip :
  (∀ (c : Context) (r : string),
      ∃ c', InjectRequestID (Some c) r = Ret c' ∧
            GetRequestID (Some c') = Ret r ∧
            ∀ key, key ≠ requestIDKey → Context_Value c' key = Context_Value c key) ∧
  (∀ (c0 : Context) (r' r : string),
      ∃ c c', InjectRequestID (Some c0) r' = Ret c ∧
              InjectRequestID (Some c) r = Ret c' ∧
              GetRequestID (Some c') = Ret r ∧
              GetRequestID (Some c) = Ret r') ∧
  (∀ c : Context, injected c = false → GetRequestID (Some c) = Ret "unknown").
Proof.
  split; [|split].
  - intros c r. eexists. split; [reflexivity|]. split.
    + apply GetRequestID_injected.
    + intros key Hkey. simpl. by rewrite decide_False.
  - intros c0 r' r. do 2 eexists. split; [reflexivity|]. split; [reflexivity|].
    split; apply GetRequestID_injected.
  - intros c Hc. unfold GetRequestID. simpl. by rewrite (Value_not_injected c Hc).
Qed.

Lemma inject_resolve_round_trip_witness :
  GetRequestID (Some (cancelCtx (valueCtx Background (foreignKey "main.key" "user") (Str "ann"))))
  = Ret "unknown".
Proof.
  destruct inject_resolve_round_trip as (_ & _ & Hnone).
  apply Hnone. reflexivity.
Defined.

(** ** The expanded template *)

Lemma Format_expand (f : DynamicFormatter) (entry : logrus.Entry) :
  DynamicFormatter_Format f entry =
    v ← record_fields f entry; Ret (expand v (Pattern f) +:+ newline, None).
Proof.
  unfold DynamicFormatter_Format, record_fields.
  destruct (MsgFormatter f) as [m|]; [|reflexivity]. simpl.
  destruct (logrus.Caller entry) as [caller|]; [|reflexivity]. simpl.
  destruct (FunctionNameFormatter_ f) as [h|]; reflexivity.
Qed.

Lemma Legacy_Format_expand (f : Legacy.DynamicFormatter) (entry : logrus.Entry) :
  Legacy.DynamicFormatter_Format f entry =
    Ret (expand (legacy_fields f entry) (Legacy.Pattern f) +:+ newline, None).
Proof.
  unfold Legacy.DynamicFormatter_Format, legacy_fields.
  destruct (logrus.Caller entry) as [caller|]; reflexivity.
Qed.

Lemma Format_rendered (f : DynamicFormatter) (entry : logrus.Entry) (v : Fields) :
  record_fields f entry = Ret v →
  DynamicFormatter_Format f entry = Ret (expand v (Pattern f) +:+ newline, None).
Proof. intros Hv. by rewrite Format_expand, Hv. Qed.

Lemma separator_absent (d : ascii) (p : string) :
  separator d = true → p ∈ recognized → has_byte d p = false.
Proof.
  unfold separator. rewrite forallb_forall. intros Hsep Hp.
  apply list_elem_of_In in Hp. specialize (Hsep _ Hp).
  by destruct (has_byte d p).
Qed.

Ltac known_placeholder :=
  unfold recognized; repeat ((by left) || right).

Lemma expand_sep (v : Fields) (d : ascii) (a b : string) :
  separator d = true →
  expand v (a +:+ String d b) = expand v a +:+ String d (expand v b).
Proof.
  intros Hsep. unfold expand, expand_fields.
  rewrite !ReplaceAll_sep; [reflexivity|..];
    apply (separator_absent d); try done; known_placeholder.
Qed.

Lemma expand_empty (v : Fields) : expand v "" = "".
Proof. reflexivity. Qed.

Lemma ends_clear_inv (s : string) :
  ends_clear s = true →
  s = "" ∨ ∃ p d, s = p +:+ String d "" ∧ separator d = true.
Proof.
  induction s as [|c s IH]; [by left|]. intros Hs. right.
  destruct s as [|c' s].
  - by exists "", c.
  - destruct (IH Hs) as [E|(p & d & E & Hd)]; [done|].
    exists (String c p), d. by rewrite E.
Qed.

(** Between clear edges a piece of the pattern is expanded on its own. *)
Lemma expand_between (v : Fields) (pre mid post : string) :
  ends_clear pre = true → starts_clear post = true →
  expand v (pre +:+ mid +:+ post) = expand v pre +:+ expand v mid +:+ expand v post.
Proof.
  intros Hpre Hpost.
  assert (expand v (mid +:+ post) = expand v mid +:+ expand v post) as Hright.
  { destruct post as [|d q].
    - by rewrite expand_empty, !app_empty_r.
    - simpl in Hpost. rewrite expand_sep by done.
      by rewrite <- (app_empty_l (String d q)), (expand_sep v d "" q). }
  destruct (ends_clear_inv pre Hpre) as [->|(p & d & -> & Hd)].
  - by rewrite expand_empty, !app_empty_l.
  - rewrite !app_assoc, !app_cons, !app_empty_l.
    rewrite !expand_sep by done.
    by rewrite Hright, expand_empty, !app_assoc.
Qed.

(** ** Placeholder tokens *)

Lemma token_cons (name : string) : token name = String "%" (name +:+ "%").
Proof. reflexivity. Qed.

Lemma plain_cons (c : ascii) (s : string) :
  has_byte "%" (String c s) = false →
  Ascii.eqb "%" c = false ∧ has_byte "%" s = false.
Proof.
  change (has_byte "%" (String c s))
    with (if Ascii.eqb c "%" then true else has_byte "%" s).
  rewrite (Ascii.eqb_sym "%" c). by destruct (Ascii.eqb c "%").
Qed.

Lemma prefix_token (name w : string) :
  has_byte "%" name = false → has_byte "%" w = false →
  HasPrefix (name +:+ "%") (w +:+ "%") = true → name = w.
Proof.
  revert name. induction w as [|o w IH]; intros name Hname Hw Hp.
  - destruct name as [|c n]; [done|].
    apply plain_cons in Hname as [Hc _].
    rewrite app_empty_l, app_cons, prefix_cons, Hc in Hp. done.
  - apply plain_cons in Hw as [Ho Hw]. destruct name as [|c n].
    + rewrite app_empty_l, app_cons, prefix_cons, Ascii.eqb_sym, Ho in Hp. done.
    + apply plain_cons in Hname as [_ Hn].
      rewrite !app_cons, prefix_cons in Hp.
      destruct (Ascii.eqb o c) eqn:Hoc; [|done].
      apply Ascii.eqb_eq in Hoc as ->. f_equal. by apply IH.
Qed.

Lemma replace_plain_tail (old new w name : string) :
  old = String "%" w → w ≠ "" → has_byte "%" name = false →
  replace_from old new 0 (name +:+ "%") = name +:+ "%".
Proof.
  intros Eold Hw. induction name as [|c n IH]; intros Hname.
  - rewrite app_empty_l, replace_step, Eold, prefix_cons, Ascii.eqb_refl.
    by destruct w.
  - apply plain_cons in Hname as [Hc Hn].
    rewrite app_cons, replace_step, Eold, prefix_cons, Hc, <- Eold.
    by rewrite IH.
Qed.

(** A token with another name is not touched by a placeholder's
    replacement. *)
Lemma ReplaceAll_other_token (name w new : string) :
  has_byte "%" name = false → has_byte "%" w = false → name ≠ w →
  ReplaceAll (token name) (token w) new = token name.
Proof.
  intros Hname Hw Hne. rewrite ReplaceAll_nonempty by done.
  rewrite (token_cons name), replace_step, (token_cons w), prefix_cons, Ascii.eqb_refl.
  destruct (HasPrefix (name +:+ "%") (w +:+ "%")) eqn:Hp.
  - by apply prefix_token in Hp.
  - f_equal. apply (replace_plain_tail _ _ (w +:+ "%")); [done| |done].
    by destruct w.
Qed.

Lemma ReplaceAll_whole (old new : string) :
  old ≠ "" → ReplaceAll old old new = new.
Proof.
  intros Hold. rewrite ReplaceAll_nonempty by done.
  rewrite <- (app_empty_r old) at 2. rewrite replace_match by done.
  apply app_empty_r.
Qed.

Ltac as_tokens :=
  change "%timestamp%" with (token "timestamp");
  change "%level%" with (token "level");
  change "%logger%" with (token "logger");
  change "%file%" with (token "file");
  change "%line%" with (token "line");
  change "%function%" with (token "function");
  change "%requestId%" with (token "requestId");
  change "%message%" with (token "message").

Lemma expand_unknown_token (v : Fields) (name : string) :
  has_byte "%" name = false → token name ∉ recognized →
  expand v (token name) = token name.
Proof.
  intros Hname Hnot. unfold expand, expand_fields. as_tokens.
  rewrite !ReplaceAll_other_token; try done;
    intros ->; apply Hnot; known_placeholder.
Qed.

Lemma expand_fields_message_token (v : Fields) :
  expand_fields v "%message%" = "%message%".
Proof.
  unfold expand_fields. as_tokens. by rewrite !ReplaceAll_other_token.
Qed.

Lemma expand_message_token (v : Fields) : expand v "%message%" = fld_message v.
Proof.
  unfold expand. rewrite expand_fields_message_token. by apply ReplaceAll_whole.
Qed.

Lemma expand_requestId_token (v : Fields) :
  expand v "%requestId%" = ReplaceAll (fld_requestID v) "%message%" (fld_message v).
Proof.
  unfold expand, expand_fields. as_tokens.
  rewrite !ReplaceAll_other_token by done.
  by rewrite (ReplaceAll_whole (token "requestId")).
Qed.

(** ** Replacement fills holes *)

Lemma app_length (a b : string) :
  String.length (a +:+ b) = (String.length a + String.length b)%nat.
Proof. induction a as [|c a IH]; [done|]. rewrite app_cons. simpl. by rewrite IH. Qed.



(** ** What the record fields are *)

Lemma record_fields_inv (f : DynamicFormatter) (entry : logrus.Entry) (v : Fields) :
  record_fields f entry = Ret v →
  ∃ m, MsgFormatter f = Some m ∧
       fld_message v = MessageFormater_Format m (logrus.Message entry) ∧
       fld_requestID v = requestID_text entry ∧
       fld_level v = ToUpper (logrus.Level_String (logrus.EntryLevel entry)).
Proof.
  unfold record_fields. destruct (MsgFormatter f) as [m|]; [|done]. simpl.
  destruct (logrus.Caller entry) as [caller|]; simpl.
  - destruct (FunctionNameFormatter_ f) as [h|]; [|done]. simpl.
    intros [= <-]. by exists m.
  - intros [= <-]. by exists m.
Qed.

Lemma record_fields_hooked (f : DynamicFormatter) (entry : logrus.Entry)
    (m : MessageFormater) (h : FunctionNameFormatter) :
  MsgFormatter f = Some m → FunctionNameFormatter_ f = Some h →
  ∃ v, record_fields f entry = Ret v.
Proof.
  intros Hm Hh. unfold record_fields. rewrite Hm, Hh. simpl.
  destruct (logrus.Caller entry); simpl; eexists; reflexivity.
Qed.

(** ** Lines *)

Lemma ends_with_newline_app (a b : string) :
  ends_with_newline b = true → ends_with_newline (a +:+ b) = true.
Proof.
  intros Hb. induction a as [|c a IH]; [done|]. rewrite app_cons.
  change (ends_with_newline (String c (a +:+ b)))
    with (match a +:+ b with
          | EmptyString => Ascii.eqb c (ascii_of_nat 10)
          | _ => ends_with_newline (a +:+ b)
          end).
  destruct (a +:+ b) eqn:E; [|done]. by simpl in IH.
Qed.

Lemma ends_with_newline_newline (a : string) :
  ends_with_newline (a +:+ newline) = true.
Proof. by apply ends_with_newline_app. Qed.

Lemma count_byte_app (c : ascii) (a b : string) :
  count_byte c (a +:+ b) = (count_byte c a + count_byte c b)%nat.
Proof.
  induction a as [|x a IH]; [done|]. rewrite app_cons. simpl. rewrite IH. lia.
Qed.

Lemma count_byte_absent (c : ascii) (s : string) :
  has_byte c s = false → count_byte c s = 0%nat.
Proof.
  induction s as [|x s IH]; [done|]. simpl.
  destruct (Ascii.eqb x c); [done|]. intros Hs. by rewrite IH.
Qed.

Lemma single_line_terminated (body : string) :
  has_byte (ascii_of_nat 10) body = false → single_line (body +:+ newline) = true.
Proof.
  intros Hbody. unfold single_line.
  rewrite count_byte_app, (count_byte_absent _ _ Hbody), ends_with_newline_newline.
  reflexivity.
Qed.

Lemma Logger_Println_record (env : Env) (s : string) (written : list string) :
  Logger_Println env s written = written ++ [log_header env +:+ s +:+ newline].
Proof.
  unfold Logger_Println, Logger_Output.
  by rewrite ends_with_newline_newline, app_empty_r.
Qed.

Lemma Logger_Output_terminated (env : Env) (s : string) (written : list string) :
  ∃ record, Logger_Output env s written = written ++ [record] ∧
            ends_with_newline record = true.
Proof.
  eexists. split; [reflexivity|]. apply ends_with_newline_app.
  destruct (ends_with_newline s) eqn:Hs.
  - by rewrite app_empty_r.
  - apply ends_with_newline_newline.
Qed.

(** ** Rendering: the message field *)

(** C3 as stated fails: with the empty pattern the formatter returns a lone
    newline, an empty line that does not carry the message, and the pattern
    [[%level%]] is rendered as [[INFO]], without the message [hello]. *)
Lemma empty_pattern_drops_message :
  DynamicFormatter_Format (sample_formatter "") (sample_entry ∅ "hello")
    = Ret (newline, None) ∧
  newline ≠ "hello" +:+ newline ∧
  DynamicFormatter_Format (sample_formatter "[%level%]") (sample_entry ∅ "hello")
    = Ret ("[INFO]" +:+ newline, None) ∧
  Contains ("[INFO]" +:+ newline) "hello" = false.
Proof. by repeat split. Qed.

(** C3, as the code has it.  With the empty pattern the formatter returns a
    single newline and no error, without the message.  The message is
    emitted where the pattern has the [%message%] placeholder: when the
    placeholder stands between clear edges (the ends of the pattern or
    separator bytes), the line is the expansion of what comes before it, the
    message as the message hook returned it, the expansion of what comes
    after it, and a newline. *)
Theorem empty_pattern_newline_message_at_placeholder
    (f : DynamicFormatter) (entry : logrus.Entry) (v : Fields) :
  record_fields f entry = Ret v →
  (Pattern f = "" → DynamicFormatter_Format f entry = Ret (newline, None)) ∧
  (∀ pre post m,
      Pattern f = pre +:+ "%message%" +:+ post →
      ends_clear pre = true → starts_clear post = true →
      MsgFormatter f = Some m →
      DynamicFormatter_Format f entry
      = Ret (expand v pre
             +:+ MessageFormater_Format m (logrus.Message entry)
             +:+ expand v post +:+ newline, None)).
Proof.
  intros Hv. rewrite (Format_rendered f entry v Hv). split.
  - intros ->. by rewrite expand_empty.
  - intros pre post m -> Hpre Hpost Hm.
    destruct (record_fields_inv f entry v Hv) as (m' & Hm' & Hmsg & _).
    rewrite Hm in Hm'. injection Hm' as <-.
    rewrite expand_between, expand_message_token, Hmsg by done.
    by rewrite !app_assoc.
Qed.

Lemma empty_pattern_newline_message_at_placeholder_witness :
  DynamicFormatter_Format (sample_formatter "") (sample_entry ∅ "hello")
    = Ret (newline, None) ∧
  DynamicFormatter_Format (sample_formatter ("[%level%] " +:+ "%message%" +:+ ""))
    (sample_entry ∅ "hello")
    = Ret ("[INFO] " +:+ "hello" +:+ "" +:+ newline, None).
Proof.
  split.
  - destruct (empty_pattern_newline_message_at_placeholder
                (sample_formatter "") (sample_entry ∅ "hello") _ eq_refl)
      as [Hempty _].
    apply Hempty. reflexivity.
  - destruct (empty_pattern_newline_message_at_placeholder
                (sample_formatter ("[%level%] " +:+ "%message%" +:+ ""))
                (sample_entry ∅ "hello") _ eq_refl)
      as [_ Hmessage].
    apply (Hmessage "[%level%] " "" DefaultMessageFormater); reflexivity.
Defined.

(** ** Rendering: unrecognized tokens *)

(** C6 as stated fails: in the pattern [%unknown%level%] the closing [%] of
    the unrecognized token opens the occurrence of [%level%] that the level
    substitution replaces, and [%unknown%] is gone from the line. *)
Lemma unknown_token_clobbered :
  ("%unknown%" ∉ recognized) ∧
  HasPrefix "%unknown%level%" "%unknown%" = true ∧
  DynamicFormatter_Format (sample_formatter "%unknown%level%") (sample_entry ∅ "hello")
    = Ret ("%unknownINFO" +:+ newline, None) ∧
  Contains ("%unknownINFO" +:+ newline) "%unknown%" = false.
Proof. split; [not_listed|]. by repeat split. Qed.

(** C6, as the code has it.  A token [%name%] that is not a recognized
    placeholder and stands between clear edges (the ends of the pattern or
    separator bytes, which occur in no placeholder) is left verbatim, and no
    error is reported: the line is the expansion of what comes before the
    token, the token, the expansion of what comes after it, and a newline. *)
Theorem unrecognized_token_left_verbatim
    (f : DynamicFormatter) (entry : logrus.Entry) (v : Fields)
    (pre name post : string) :
  record_fields f entry = Ret v →
  has_byte "%" name = false →
  token name ∉ recognized →
  ends_clear pre = true → starts_clear post = true →
  Pattern f = pre +:+ token name +:+ post →
  DynamicFormatter_Format f entry
  = Ret (expand v pre +:+ token name +:+ expand v post +:+ newline, None).
Proof.
  intros Hv Hname Hnot Hpre Hpost Hpat.
  rewrite (Format_rendered f entry v Hv), Hpat.
  rewrite expand_between, expand_unknown_token by done.
  by rewrite !app_assoc.
Qed.

Lemma unrecognized_token_left_verbatim_witness :
  DynamicFormatter_Format
    (sample_formatter ("%level% " +:+ token "unknown" +:+ " %message%"))
    (sample_entry ∅ "hello")
  = Ret ("INFO " +:+ token "unknown" +:+ " hello" +:+ newline, None).
Proof.
  eapply (unrecognized_token_left_verbatim
            (sample_formatter ("%level% " +:+ token "unknown" +:+ " %message%"))
            (sample_entry ∅ "hello") _ "%level% " "unknown" " %message%" eq_refl);
    [reflexivity|not_listed|reflexivity..].
Defined.

(** ** Rendering: the message is substituted last *)



(** ** Rendering: the trailing newline *)

(** C9 as stated fails: a message with a newline in it is rendered as two
    lines, and a message that ends with a newline gives a line that ends
    with two. *)
Lemma multi_line_message_not_one_line :
  DynamicFormatter_Format (sample_formatter "%message%")
    (sample_entry ∅ ("a" +:+ newline +:+ "b"))
  = Ret ("a" +:+ newline +:+ "b" +:+ newline, None) ∧
  single_line ("a" +:+ newline +:+ "b" +:+ newline) = false ∧
  DynamicFormatter_Format (sample_formatter "%message%")
    (sample_entry ∅ ("a" +:+ newline))
  = Ret ("a" +:+ newline +:+ newline, None) ∧
  single_line ("a" +:+ newline +:+ newline) = false.
Proof. by repeat split. Qed.

(** C9, as the code has it.  Pattern-mode rendering appends exactly one
    newline to the expanded template, with hooks and without, so the result
    is one newline-terminated line whenever the expanded template has no
    newline of its own.  In structured mode [StdLogger] writes one record per
    call: the header of the underlying logger, the serialized object and a
    single newline; and every record that [StdLogger] writes, in either
    mode, ends with a newline. *)
Theorem rendering_appends_one_newline :
  (∀ f entry v,
      record_fields f entry = Ret v →
      DynamicFormatter_Format f entry
      = Ret (expand v (Pattern f) +:+ newline, None) ∧
      (has_byte (ascii_of_nat 10) (expand v (Pattern f)) = false →
       single_line (expand v (Pattern f) +:+ newline) = true)) ∧
  (∀ f entry,
      Legacy.DynamicFormatter_Format f entry
      = Ret (expand (legacy_fields f entry) (Legacy.Pattern f) +:+ newline, None)) ∧
  (∀ l level levelStr msg c args env written,
      shouldLog l level = true → format l = "json" →
      ∃ object : gmap string any,
        StdLogger_log l level levelStr msg (Some c) args env written
        = Ret (written ++
                 [log_header env +:+ default "" (json_Marshal env object)
                  +:+ newline])) ∧
  (∀ l level levelStr msg c args env written,
      shouldLog l level = true →
      ∃ record,
        StdLogger_log l level levelStr msg (Some c) args env written
        = Ret (written ++ [record]) ∧
        ends_with_newline record = true).
Proof.
  split; [|split; [|split]].
  - intros f entry v Hv. split; [by apply Format_rendered|].
    apply single_line_terminated.
  - apply Legacy_Format_expand.
  - intros l level levelStr msg c args env written Hgate Hjson.
    unfold StdLogger_log. rewrite Hgate. simpl.
    rewrite decide_True by done. eexists. by rewrite Logger_Println_record.
  - intros l level levelStr msg c args env written Hgate.
    unfold StdLogger_log. rewrite Hgate. simpl.
    destruct (decide (format l = "json")).
    + eexists. rewrite Logger_Println_record. split; [reflexivity|].
      apply ends_with_newline_app, ends_with_newline_newline.
    + destruct (Logger_Output_terminated env
                  ("[" +:+ ToUpper levelStr +:+ "] " +:+ time_Now_RFC3339 env
                   +:+ " | file=" +:+ (runtime_Caller3 env).1
                   +:+ ", function=" +:+ default "unknown" (runtime_Caller2 env)
                   +:+ ", line=" +:+ itoa (runtime_Caller3 env).2
                   +:+ ", requestID=" +:+ Sprint (Context_Value c RequestIDKey)
                   +:+ " | " +:+ fmt_Sprintf env msg args) written)
        as (record & Hrec & Hend).
      exists record. by rewrite Hrec.
Qed.

Lemma rendering_appends_one_newline_witness :
  single_line ("[INFO] hello" +:+ newline) = true ∧
  (∃ record,
      StdLogger_log (NewLogger DefaultConfig) InfoLevel "info" "hello"
        (Some Background) [] sample_env []
      = Ret ([] ++ [record]) ∧
      ends_with_newline record = true).
Proof.
  destruct rendering_appends_one_newline as (Hpattern & _ & _ & Hstd).
  split.
  - destruct (Hpattern (sample_formatter "[%level%] %message%")
                (sample_entry ∅ "hello") _ eq_refl) as [_ Hline].
    apply Hline. reflexivity.
  - apply Hstd. reflexivity.
Defined.

(** ** The correlation ID in the rendered line *)

Lemma Entry_Info_rendered (Log : logrus.Logger) (f : DynamicFormatter)
    (entry : logrus.Entry) (msg : string) (site : logrus.Site) (v : Fields) :
  logrus.Formatter Log = DynamicFormatter_Format f →
  logrus.IsLevelEnabled Log logrus.InfoLevel = true →
  record_fields f (stamped Log entry msg site) = Ret v →
  logrus.Entry_Info Log entry msg site
  = Ret (Some (expand v (Pattern f) +:+ newline)).
Proof.
  intros Hf Hlevel Hv. unfold logrus.Entry_Info. rewrite Hlevel, Hf.
  fold (stamped Log entry msg site).
  by rewrite (Format_rendered f _ v Hv).
Qed.

Section request_id_rendering.
Variables (pre post tf : string).
Variables (mf : MessageFormater) (ff : FunctionNameFormatter).
Variables (lvl : logrus.Level) (rc : bool).
Variables (zero : time_Time) (site : logrus.Site).

Let f : DynamicFormatter :=
  {| Pattern := pre +:+ "%requestId%" +:+ post; TimestampFormat := tf;
     MsgFormatter := Some mf; FunctionNameFormatter_ := Some ff |}.

Let Log : logrus.Logger :=
  {| logrus.Formatter := DynamicFormatter_Format f;
     logrus.LoggerLevel := lvl; logrus.ReportCaller := rc |}.

Hypothesis enabled : logrus.IsLevelEnabled Log logrus.InfoLevel = true.
Hypothesis clear_before : ends_clear pre = true.
Hypothesis clear_after : starts_clear post = true.

(** An entry with the data [fields] is rendered with the text of its
    [requestId], scanned once more for [%message%]. *)
Lemma fields_info_rendered (fields : gmap string any) (msg : string) :
  ∃ v, logrus.Entry_Info Log (logrus.WithFields fields zero) msg site
       = Ret (Some (expand v pre
                    +:+ ReplaceAll (fld_requestID v) "%message%" (fld_message v)
                    +:+ expand v post +:+ newline)) ∧
       fld_requestID v = match fields !! "requestId" with
                         | Some rid => Sprint rid
                         | None => "unknown"
                         end ∧
       fld_message v = MessageFormater_Format mf msg.
Proof.
  destruct (record_fields_hooked f
              (stamped Log (logrus.WithFields fields zero) msg site) mf ff
              eq_refl eq_refl) as [v Hv].
  destruct (record_fields_inv f _ v Hv) as (m & Hm & Hmsg & Hrid & _).
  injection Hm as <-.
  exists v. split; [|by split].
  rewrite (Entry_Info_rendered Log f _ msg site v eq_refl enabled Hv).
  subst f. simpl Pattern.
  rewrite expand_between, expand_requestId_token by done.
  by rewrite !app_assoc.
Qed.

Lemma bound_info_rendered (c : Context) (r msg : string) :
  ∃ v, bound_info Log c r zero site msg
       = Ret (Some (expand v pre
                    +:+ ReplaceAll r "%message%" (MessageFormater_Format mf msg)
                    +:+ expand v post +:+ newline)) ∧
       fld_requestID v = r.
Proof.
  destruct (fields_info_rendered {[ "requestId" := Str r ]} msg)
    as (v & Hout & Hrid & Hmsg).
  rewrite lookup_singleton_eq in Hrid. simpl in Hrid.
  exists v. split; [|done]. by rewrite <- Hrid at 2; rewrite <- Hmsg.
Qed.

Lemma context_info_not_injected (c : Context) (msg : string) :
  injected c = false →
  ∃ v, context_info Log c zero site msg
       = Ret (Some (expand v pre +:+ "unknown" +:+ expand v post +:+ newline)) ∧
       fld_requestID v = "unknown".
Proof.
  intros Hc.
  destruct (fields_info_rendered {[ "requestId" := Str "unknown" ]} msg)
    as (v & Hout & Hrid & Hmsg).
  rewrite lookup_singleton_eq in Hrid. simpl in Hrid.
  exists v. split; [|done].
  unfold context_info, WithContext, GetRequestID. simpl.
  rewrite (Value_not_injected c Hc). simpl.
  rewrite Hout, Hrid. by rewrite ReplaceAll_absent.
Qed.

End request_id_rendering.

(** C4 as stated fails: the correlation ID [%message%] is injected, the
    logger is bound to the context, and [Info("x")] renders [%requestId%] as
    [x], since the message substitution scans the substituted ID again. *)
Lemma request_id_with_message_token_rewritten :
  bound_info (sample_logger "%requestId%") Background "%message%"
    sample_zero_time sample_site "x"
  = Ret (Some ("x" +:+ newline)) ∧
  "x" +:+ newline ≠ "%message%" +:+ newline.
Proof. by split. Qed.

(** C4, as the code has it.  Where the pattern has [%requestId%] between
    clear edges, [Info("x")] on a logger bound by [WithContext] to a context
    into which the correlation ID [r] was injected renders the placeholder
    as exactly [r], provided [r] does not contain [%message%]; an entry
    whose data has no correlation ID, and a logger bound to a context into
    which none was injected, render it as [unknown]. *)
Theorem bound_logger_renders_request_id
    (pre post tf : string) (mf : MessageFormater) (ff : FunctionNameFormatter)
    (lvl : logrus.Level) (rc : bool) (zero : time_Time) (site : logrus.Site) :
  let Log :=
    formatter_logger (hooked_formatter (pre +:+ "%requestId%" +:+ post) tf mf ff)
      lvl rc in
  logrus.IsLevelEnabled Log logrus.InfoLevel = true →
  ends_clear pre = true → starts_clear post = true →
  (∀ (c : Context) (r : string),
      Contains r "%message%" = false →
      ∃ v, bound_info Log c r zero site "x"
           = Ret (Some (expand v pre +:+ r +:+ expand v post +:+ newline)) ∧
           fld_requestID v = r) ∧
  (∀ fields : gmap string any,
      fields !! "requestId" = None →
      ∃ v, logrus.Entry_Info Log (logrus.WithFields fields zero) "x" site
           = Ret (Some (expand v pre +:+ "unknown" +:+ expand v post +:+ newline)) ∧
           fld_requestID v = "unknown") ∧
  (∀ c : Context,
      injected c = false →
      ∃ v, context_info Log c zero site "x"
           = Ret (Some (expand v pre +:+ "unknown" +:+ expand v post +:+ newline)) ∧
           fld_requestID v = "unknown").
Proof.
  intros Log Henabled Hpre Hpost. split; [|split].
  - intros c r Hr.
    destruct (bound_info_rendered pre post tf mf ff lvl rc zero site
                Henabled Hpre Hpost c r "x") as (v & Hout & Hrid).
    exists v. split; [|done]. rewrite ReplaceAll_absent in Hout by done.
    exact Hout.
  - intros fields Hnone.
    destruct (fields_info_rendered pre post tf mf ff lvl rc zero site
                Henabled Hpre Hpost fields "x") as (v & Hout & Hrid & _).
    rewrite Hnone in Hrid. exists v. split; [|done].
    rewrite Hrid, ReplaceAll_absent in Hout by done. exact Hout.
  - intros c Hc.
    exact (context_info_not_injected pre post tf mf ff lvl rc zero site
             Henabled Hpre Hpost c "x" Hc).
Qed.

Lemma bound_logger_renders_request_id_witness :
  (∃ v, bound_info
          (formatter_logger
             (hooked_formatter ("%level% | " +:+ "%requestId%" +:+ " | %message%")
                "2006-01-02 15:04:05" DefaultMessageFormater
                DefaultFunctionNameFormatter)
             logrus.InfoLevel true)
          (cancelCtx Background) "req-42" sample_zero_time sample_site "x"
        = Ret (Some (expand v "%level% | " +:+ "req-42"
                     +:+ expand v " | %message%" +:+ newline)) ∧
        fld_requestID v = "req-42") ∧
  (∃ v, logrus.Entry_Info
          (formatter_logger
             (hooked_formatter ("%level% | " +:+ "%requestId%" +:+ " | %message%")
                "2006-01-02 15:04:05" DefaultMessageFormater
                DefaultFunctionNameFormatter)
             logrus.InfoLevel true)
          (logrus.WithFields {[ "logger" := Str "main" ]} sample_zero_time)
          "x" sample_site
        = Ret (Some (expand v "%level% | " +:+ "unknown"
                     +:+ expand v " | %message%" +:+ newline)) ∧
        fld_requestID v = "unknown").
Proof.
  destruct (bound_logger_renders_request_id "%level% | " " | %message%"
              "2006-01-02 15:04:05" DefaultMessageFormater
              DefaultFunctionNameFormatter logrus.InfoLevel true
              sample_zero_time sample_site eq_refl eq_refl eq_refl)
    as (Hbound & Hplain & _).
  split.
  - apply Hbound. reflexivity.
  - apply Hplain. reflexivity.
Defined.

(** * Further properties of the code *)

(** ** Level strings and the gate *)

Lemma parseLogLevel_cases (level : string) :
  (ToLower level = "debug" ∧ parseLogLevel level = DebugLevel) ∨
  (ToLower level = "info" ∧ parseLogLevel level = InfoLevel) ∨
  (ToLower level = "warn" ∧ parseLogLevel level = WarnLevel) ∨
  (ToLower level = "error" ∧ parseLogLevel level = ErrorLevel) ∨
  ((ToLower level ∉ level_names) ∧ parseLogLevel level = InfoLevel).
Proof.
  unfold parseLogLevel.
  destruct (decide (ToLower level = "debug")) as [E|Hd]; [by left|].
  destruct (decide (ToLower level = "info")) as [E|Hi]; [by right; left|].
  destruct (decide (ToLower level = "warn")) as [E|Hw]; [by right; right; left|].
  destruct (decide (ToLower level = "error")) as [E|He];
    [by right; right; right; left|].
  do 4 right. split; [|done]. unfold level_names.
  intros H. repeat (apply elem_of_cons in H as [H|H]; [done|]).
  by apply elem_of_nil in H.
Qed.

Lemma parseLogLevel_in_range (level : string) :
  DebugLevel ≤ parseLogLevel level ≤ ErrorLevel.
Proof.
  destruct (parseLogLevel_cases level)
    as [[_ ->]|[[_ ->]|[[_ ->]|[[_ ->]|[_ ->]]]]]; by vm_compute.
Qed.

(** [parseLogLevel] does not look at letter case, and whatever the string
    is, the level it returns is one of the four levels of the facade. *)
Theorem parseLogLevel_case_blind_and_in_range (level : string) :
  parseLogLevel (ToUpper level) = parseLogLevel level ∧
  parseLogLevel (ToLower level) = parseLogLevel level ∧
  (DebugLevel ≤ parseLogLevel level ≤ ErrorLevel).
Proof.
  split; [|split].
  - unfold parseLogLevel. by rewrite ToLower_ToUpper.
  - unfold parseLogLevel. by rewrite ToLower_ToLower.
  - apply parseLogLevel_in_range.
Qed.

(** Whatever level string a logger is built from, its gate lets every Error
    call pass; it lets Debug calls pass exactly when the string is [debug]
    in some letter case; and a level that passes lets every higher level
    pass. *)
Theorem error_always_passes_the_gate (cfg : Config.t) :
  shouldLog (NewLogger cfg) ErrorLevel = true ∧
  (shouldLog (NewLogger cfg) DebugLevel = true
   ↔ ToLower (Config.LogLevel cfg) = "debug") ∧
  (∀ a b : LogLevel,
      shouldLog (NewLogger cfg) a = true → a ≤ b →
      shouldLog (NewLogger cfg) b = true).
Proof.
  unfold shouldLog, NewLogger. simpl. split; [|split].
  - destruct (parseLogLevel_in_range (Config.LogLevel cfg)) as [_ Hmax].
    apply Z.geb_le. exact Hmax.
  - destruct (parseLogLevel_cases (Config.LogLevel cfg))
      as [[E ->]|[[E ->]|[[E ->]|[[E ->]|[E ->]]]]];
      split; intros H;
      first [ done | by vm_compute | by vm_compute in H
            | by rewrite E in H
            | exfalso; apply E; rewrite H; by left ].
  - intros a b Ha Hab. apply Z.geb_le. apply Z.geb_le in Ha. lia.
Qed.

Lemma error_always_passes_the_gate_witness :
  shouldLog (NewLogger DefaultConfig) WarnLevel = true.
Proof.
  destruct (error_always_passes_the_gate DefaultConfig) as (_ & _ & Hup).
  apply (Hup InfoLevel WarnLevel); [reflexivity|by vm_compute].
Defined.

(** ** [Config.Validate] *)

Lemma validLevels_listed (s : string) :
  default false
    (({[ "debug" := true; "info" := true; "warn" := true; "error" := true ]}
        : gmap string bool) !! s) = true
  ↔ s ∈ level_names.
Proof.
  unfold level_names. rewrite !elem_of_cons, elem_of_nil.
  rewrite !lookup_insert.
  rewrite lookup_singleton.
  repeat case_decide; subst; simpl; intuition congruence.
Qed.

Lemma Validate_accepted (c : Config.t) (fs : FS) :
  Config_Validate c fs = None ↔
    (Config.LogType c = "console" ∨ Config.LogType c = "file") ∧
    Config.LogLevel c ∈ level_names ∧
    (Config.LogFormat c = "text" ∨ Config.LogFormat c = "json") ∧
    (Config.LogType c = "file" →
       Config.LogDir c ≠ "" ∧ os_MkdirAll fs (Config.LogDir c) = None).
Proof.
  unfold Config_Validate.
  pose proof (validLevels_listed (Config.LogLevel c)) as Hlevels.
  destruct (decide (Config.LogType c ≠ "console" ∧ Config.LogType c ≠ "file"))
    as [[Hnc Hnf]|Htype].
  { split; [done|]. by intros ([?|?] & _). }
  assert (Config.LogType c = "console" ∨ Config.LogType c = "file") as Hty.
  { destruct (decide (Config.LogType c = "console")); [by left|].
    destruct (decide (Config.LogType c = "file")); [by right|].
    by destruct Htype. }
  destruct (default false _) eqn:Hv; simpl.
  2:{ split; [done|]. intros (_ & Hin & _). apply Hlevels in Hin. done. }
  assert (Config.LogLevel c ∈ level_names) as Hin by by apply Hlevels.
  destruct (decide (Config.LogFormat c ≠ "text" ∧ Config.LogFormat c ≠ "json"))
    as [[Hnt Hnj]|Hformat].
  { split; [done|]. by intros (_ & _ & [?|?] & _). }
  assert (Config.LogFormat c = "text" ∨ Config.LogFormat c = "json") as Hfmt.
  { destruct (decide (Config.LogFormat c = "text")); [by left|].
    destruct (decide (Config.LogFormat c = "json")); [by right|].
    by destruct Hformat. }
  destruct (decide (Config.LogType c = "file")) as [Hfile|Hnofile].
  2:{ split; [|done]. intros _. by split_and!. }
  destruct (decide (Config.LogDir c = "")) as [Hdir|Hdir].
  { split; [done|]. intros (_ & _ & _ & Hreq). by destruct (Hreq Hfile). }
  destruct (os_MkdirAll fs (Config.LogDir c)) as [err|] eqn:Hmk.
  { split; [done|]. intros (_ & _ & _ & Hreq). by destruct (Hreq Hfile). }
  split; [|done]. intros _. by split_and!.
Qed.

(** [Validate] accepts a configuration exactly when its type is [console]
    or [file], its level is one of the four lower-case names, its format is
    [text] or [json], and, for the type [file], the directory is not empty
    and can be created.  Unless the type is [file] with a directory, the
    answer does not depend on the file system. *)
Theorem Validate_accepts_iff (c : Config.t) (fs : FS) :
  (Config_Validate c fs = None ↔
     (Config.LogType c = "console" ∨ Config.LogType c = "file") ∧
     Config.LogLevel c ∈ level_names ∧
     (Config.LogFormat c = "text" ∨ Config.LogFormat c = "json") ∧
     (Config.LogType c = "file" →
        Config.LogDir c ≠ "" ∧ os_MkdirAll fs (Config.LogDir c) = None)) ∧
  (∀ fs', Config.LogType c ≠ "file" ∨ Config.LogDir c = "" →
          Config_Validate c fs' = Config_Validate c fs).
Proof.
  split; [apply Validate_accepted|].
  intros fs' Hfree. unfold Config_Validate.
  repeat case_decide; try done. by destruct Hfree.
Qed.

Lemma Validate_accepts_iff_witness :
  Config_Validate DefaultConfig
    {| os_MkdirAll := λ _, Some "permission denied"; os_OpenFile := λ _, None |}
  = Config_Validate DefaultConfig sample_fs.
Proof.
  destruct (Validate_accepts_iff DefaultConfig sample_fs) as [_ Hfs].
  apply Hfs. left. done.
Defined.

Lemma level_names_severity (name : string) :
  name ∈ level_names → ∃ s : Severity, name = level_name s.
Proof.
  unfold level_names. rewrite !elem_of_cons, elem_of_nil.
  intros [->|[->|[->|[->|[]]]]];
    [by exists Debug|by exists Info|by exists Warn|by exists Error].
Qed.

(** A configuration that [Validate] accepts gives [NewLogger] the level it
    names, without the fallback, and its format as written; with the type
    [console] the only destination is standard output and nothing is
    reported, and with the type [file], whose directory [Validate] has seen
    created, the log file is the second destination unless it cannot be
    opened. *)
Theorem validated_config_builds_named_logger (c : Config.t) (fs : FS) :
  Config_Validate c fs = None →
  (∃ s : Severity,
      Config.LogLevel c = level_name s ∧
      currentLevel (NewLogger c) = level_of s) ∧
  format (NewLogger c) = Config.LogFormat c ∧
  (Config.LogType c = "console" → NewLogger_writers c fs = ([Stdout], [])) ∧
  (Config.LogType c = "file" →
   os_OpenFile fs (Config.LogDir c +:+ "/app.log") = None →
   NewLogger_writers c fs
   = ([Stdout; LogFile (Config.LogDir c +:+ "/app.log")], [])).
Proof.
  intros Hok. apply Validate_accepted in Hok as (Hty & Hlevel & Hfmt & Hdir).
  split; [|split; [|split]].
  - destruct (level_names_severity _ Hlevel) as [s Hs].
    exists s. split; [done|]. unfold NewLogger. simpl.
    by rewrite Hs, parseLogLevel_level_name.
  - unfold NewLogger. simpl. by destruct Hfmt as [-> | ->].
  - intros Hconsole. unfold NewLogger_writers. by rewrite Hconsole.
  - intros Hfile Hopen. destruct (Hdir Hfile) as [_ Hmk].
    unfold NewLogger_writers. by rewrite Hfile, Hmk, Hopen.
Qed.

Lemma validated_config_builds_named_logger_witness :
  (∃ s : Severity,
      "info" = level_name s ∧ currentLevel (NewLogger DefaultConfig) = level_of s) ∧
  format (NewLogger DefaultConfig) = "text".
Proof.
  destruct (validated_config_builds_named_logger DefaultConfig sample_fs eq_refl)
    as (Hlevel & Hformat & _).
  by split.
Defined.

(** ** The destinations of [NewLogger] *)

(** Standard output is always the first destination.  The log file
    [dir/app.log] is a destination exactly when [strings.ToLower] maps the
    type to [file] and both creating the directory and opening the file
    succeed; otherwise the logger is built with standard output alone, and
    a failure is reported with one message on standard error.  When the
    directory cannot be created the file is not opened. *)
Theorem NewLogger_falls_back_to_stdout (cfg : Config.t) (fs : FS) :
  (∃ rest, (NewLogger_writers cfg fs).1 = Stdout :: rest) ∧
  (∀ path,
      LogFile path ∈ (NewLogger_writers cfg fs).1 ↔
        ToLower (Config.LogType cfg) = "file" ∧
        os_MkdirAll fs (Config.LogDir cfg) = None ∧
        os_OpenFile fs (Config.LogDir cfg +:+ "/app.log") = None ∧
        path = Config.LogDir cfg +:+ "/app.log") ∧
  ((NewLogger_writers cfg fs).1 = [Stdout] ∨
   (NewLogger_writers cfg fs).2 = []) ∧
  (∀ open' err,
      os_MkdirAll fs (Config.LogDir cfg) = Some err →
      NewLogger_writers cfg
        {| os_MkdirAll := os_MkdirAll fs; os_OpenFile := open' |}
      = NewLogger_writers cfg fs).
Proof.
  unfold NewLogger_writers.
  destruct (decide (ToLower (Config.LogType cfg) = "file")) as [Hfile|Hfile];
    [destruct (os_MkdirAll fs (Config.LogDir cfg)) as [e|] eqn:Hmk;
     [|destruct (os_OpenFile fs (Config.LogDir cfg +:+ "/app.log")) as [e|] eqn:Hop]|];
    simpl; (split; [by eexists|]); (split; [|split; [by auto|]]).
  all: try (intros path; rewrite ?elem_of_cons, ?elem_of_nil; by intuition congruence).
  all: intros open' err Herr; by rewrite ?Hmk.
Qed.

Lemma NewLogger_falls_back_to_stdout_witness :
  NewLogger_writers
    {| Config.LogType := "file"; Config.LogDir := "/var/log/app";
       Config.LogLevel := "info"; Config.LogFormat := "text" |}
    {| os_MkdirAll := λ _, Some "read-only file system";
       os_OpenFile := λ _, Some "never asked" |}
  = NewLogger_writers
      {| Config.LogType := "file"; Config.LogDir := "/var/log/app";
         Config.LogLevel := "info"; Config.LogFormat := "text" |}
      {| os_MkdirAll := λ _, Some "read-only file system";
         os_OpenFile := λ _, None |}.
Proof.
  destruct (NewLogger_falls_back_to_stdout
              {| Config.LogType := "file"; Config.LogDir := "/var/log/app";
                 Config.LogLevel := "info"; Config.LogFormat := "text" |}
              {| os_MkdirAll := λ _, Some "read-only file system";
                 os_OpenFile := λ _, None |}) as (_ & _ & _ & Hmk).
  apply (Hmk _ "read-only file system"). reflexivity.
Defined.

(** ** Logging with fields *)

Lemma foldl_insert_union (l : list (string * any)) (base : gmap string any) :
  foldl (λ entry kv, <[kv.1 := kv.2]> entry) base l
  = list_to_map (reverse l) ∪ base.
Proof.
  revert base. induction l as [|[k v] l IH]; intros base; simpl.
  - by rewrite (left_id_L ∅ (∪)).
  - rewrite IH, reverse_cons, list_to_map_app. simpl.
    rewrite insert_empty, <- (assoc_L (∪)).
    by rewrite <- insert_union_singleton_l.
Qed.

Lemma ranged_fields_union (fields base : gmap string any)
    (ranged : list (string * any)) :
  ranged ≡ₚ map_to_list fields →
  foldl (λ entry kv, <[kv.1 := kv.2]> entry) base ranged = fields ∪ base.
Proof.
  intros Hperm. rewrite foldl_insert_union. f_equal.
  trans (list_to_map (map_to_list fields) : gmap string any);
    [|apply list_to_map_to_list].
  symmetry. apply list_to_map_proper; [apply NoDup_fst_map_to_list|].
  by rewrite reverse_Permutation.
Qed.

Lemma foldl_snoc_map {A B} (g : A → B) (l : list A) (acc : list B) :
  foldl (λ parts x, parts ++ [g x]) acc l = acc ++ map g l.
Proof.
  revert acc. induction l as [|x l IH]; intros acc; simpl.
  - by rewrite app_nil_r.
  - by rewrite IH, <- (assoc_L (++)).
Qed.

(** [InfoWithFields] reads no context: on a plain logger as on a bound one,
    whatever context it is bound to, it returns, having written one
    newline-terminated record if Info passes the gate and nothing
    otherwise. *)
Theorem InfoWithFields_gated_without_context (l : StdLogger) (msg : string)
    (ranged : list (string * any)) (env : Env) (written : list string) :
  (shouldLog l InfoLevel = false →
   StdLogger_InfoWithFields l msg ranged env written = written) ∧
  (shouldLog l InfoLevel = true →
   ∃ record,
     StdLogger_InfoWithFields l msg ranged env written = written ++ [record] ∧
     ends_with_newline record = true) ∧
  (∀ ctx : option Context,
      StdLoggerWithContext_InfoWithFields (StdLogger_WithContext l ctx)
        msg ranged env written
      = StdLogger_InfoWithFields l msg ranged env written).
Proof.
  split; [|split].
  - intros Hgate. unfold StdLogger_InfoWithFields. by rewrite Hgate.
  - intros Hgate. unfold StdLogger_InfoWithFields. rewrite Hgate. simpl.
    destruct (decide (format l = "json")).
    + eexists. rewrite Logger_Println_record. split; [reflexivity|].
      apply ends_with_newline_app, ends_with_newline_newline.
    + apply Logger_Output_terminated.
  - reflexivity.
Qed.

Lemma InfoWithFields_gated_without_context_witness :
  StdLogger_InfoWithFields
    (NewLogger {| Config.LogType := "console"; Config.LogDir := "./logs";
                  Config.LogLevel := "warn"; Config.LogFormat := "text" |})
    "user created" [("id", Int 7)] sample_env [] = [] ∧
  (∃ record,
      StdLogger_InfoWithFields DefaultLogger "user created" [("id", Int 7)]
        sample_env [] = [] ++ [record] ∧
      ends_with_newline record = true).
Proof.
  split.
  - by apply InfoWithFields_gated_without_context.
  - by apply InfoWithFields_gated_without_context.
Defined.

(** In structured mode the object that [InfoWithFields] serializes is the
    map of the fields laid over [level], [time] and [message]: a field of
    the caller replaces the built-in entry of the same name, and the order
    in which the map is ranged over does not matter. *)
Theorem InfoWithFields_fields_take_precedence (l : StdLogger) (msg : string)
    (fields : gmap string any) (ranged : list (string * any))
    (env : Env) (written : list string) :
  shouldLog l InfoLevel = true → format l = "json" →
  ranged ≡ₚ map_to_list fields →
  let base : gmap string any :=
    <["level" := Str "info"]> (
    <["time" := Str (time_Now_RFC3339 env)]> (
    <["message" := Str msg]> ∅)) in
  StdLogger_InfoWithFields l msg ranged env written
  = written ++ [log_header env
                +:+ default "" (json_Marshal env (fields ∪ base)) +:+ newline] ∧
  (∀ k v, fields !! k = Some v → (fields ∪ base) !! k = Some v) ∧
  (∀ k, fields !! k = None → (fields ∪ base) !! k = base !! k).
Proof.
  intros Hgate Hjson Hperm base. split; [|split].
  - unfold StdLogger_InfoWithFields. rewrite Hgate. simpl.
    rewrite decide_True by done.
    rewrite (ranged_fields_union fields _ ranged Hperm).
    apply Logger_Println_record.
  - intros k v Hk. by apply lookup_union_Some_l.
  - intros k Hk. by apply lookup_union_r.
Qed.

Lemma InfoWithFields_fields_take_precedence_witness :
  StdLogger_InfoWithFields
    (NewLogger {| Config.LogType := "console"; Config.LogDir := "./logs";
                  Config.LogLevel := "info"; Config.LogFormat := "json" |})
    "user created" [("level", Str "audit")] sample_env []
  = [] ++ [log_header sample_env
           +:+ default ""
                 (json_Marshal sample_env
                    ({[ "level" := Str "audit" ]}
                       ∪ <["level" := Str "info"]> (
                         <["time" := Str (time_Now_RFC3339 sample_env)]> (
                         <["message" := Str "user created"]> ∅))))
           +:+ newline].
Proof.
  apply (InfoWithFields_fields_take_precedence
           (NewLogger {| Config.LogType := "console"; Config.LogDir := "./logs";
                         Config.LogLevel := "info"; Config.LogFormat := "json" |})
           "user created" {[ "level" := Str "audit" ]} [("level", Str "audit")]
           sample_env [] eq_refl eq_refl).
  by rewrite map_to_list_singleton.
Defined.

Lemma no_newline_after_bar (s : string) : ends_with_newline (s +:+ " | ") = false.
Proof.
  induction s as [|c s IH]; [done|]. rewrite app_cons.
  change (ends_with_newline (String c (s +:+ " | ")))
    with (match s +:+ " | " with
          | EmptyString => Ascii.eqb c (ascii_of_nat 10)
          | _ => ends_with_newline (s +:+ " | ")
          end).
  destruct (s +:+ " | ") eqn:E; [by destruct s|done].
Qed.

(** In text mode the record of [InfoWithFields] is the header, [[INFO]], the
    message as given (it is not formatted), a bar, and the fields as
    [key=value] in the order they are ranged over, joined by commas; without
    fields the text ends with the bar and a blank. *)
Theorem InfoWithFields_text_record (l : StdLogger) (msg : string)
    (ranged : list (string * any)) (env : Env) (written : list string) :
  shouldLog l InfoLevel = true → format l ≠ "json" →
  let text :=
    "[INFO] " +:+ msg +:+ " | "
    +:+ Join (map (λ kv, kv.1 +:+ "=" +:+ Sprint kv.2) ranged) ", " in
  StdLogger_InfoWithFields l msg ranged env written
  = written ++ [log_header env +:+ text
                +:+ (if ends_with_newline text then "" else newline)] ∧
  (ranged = [] →
   StdLogger_InfoWithFields l msg ranged env written
   = written ++ [log_header env +:+ "[INFO] " +:+ msg +:+ " | " +:+ newline]).
Proof.
  intros Hgate Htext text.
  assert (StdLogger_InfoWithFields l msg ranged env written
          = written ++ [log_header env +:+ text
                        +:+ (if ends_with_newline text then "" else newline)])
    as Hrec.
  { unfold StdLogger_InfoWithFields. rewrite Hgate. simpl.
    rewrite decide_False by done. by rewrite foldl_snoc_map. }
  split; [done|]. intros ->. rewrite Hrec. subst text. cbn [map].
  change (Join [] ", ") with "". change (" | " +:+ "") with " | ".
  rewrite <- (app_assoc "[INFO] " msg " | "), no_newline_after_bar.
  by rewrite !app_assoc.
Qed.

Lemma InfoWithFields_text_record_witness :
  StdLogger_InfoWithFields DefaultLogger "user created" [] sample_env []
  = [] ++ [log_header sample_env +:+ "[INFO] " +:+ "user created" +:+ " | "
           +:+ newline].
Proof.
  destruct (InfoWithFields_text_record DefaultLogger "user created" []
              sample_env [] eq_refl ltac:(done)) as [_ Hempty].
  by apply Hempty.
Defined.

(** ** What [StdLogger.log] writes *)

(** In structured mode a call that passes the gate serializes an object with
    exactly the keys [level], [time], [message], [file], [function], [line]
    and [requestID]; the message is the formatted one and the correlation ID
    is what the context holds under [RequestIDKey], nil if nothing.  When
    serialization fails the error is dropped and the record is the header
    and a newline. *)
Theorem log_structured_object (l : StdLogger) (level : LogLevel)
    (levelStr msg : string) (c : Context) (args : list any)
    (env : Env) (written : list string) :
  shouldLog l level = true → format l = "json" →
  let object :=
    log_object levelStr (fmt_Sprintf env msg args)
      (Context_Value c RequestIDKey) env in
  StdLogger_log l level levelStr msg (Some c) args env written
  = Ret (written ++ [log_header env
                     +:+ default "" (json_Marshal env object) +:+ newline]) ∧
  dom object
  = ({[ "level"; "time"; "message"; "file"; "function"; "line"; "requestID" ]}
       : gset string) ∧
  object !! "message" = Some (Str (fmt_Sprintf env msg args)) ∧
  object !! "requestID" = Some (Context_Value c RequestIDKey) ∧
  (json_Marshal env object = None →
   StdLogger_log l level levelStr msg (Some c) args env written
   = Ret (written ++ [log_header env +:+ newline])).
Proof.
  intros Hgate Hjson object.
  assert (StdLogger_log l level levelStr msg (Some c) args env written
          = Ret (written ++ [log_header env
                             +:+ default "" (json_Marshal env object)
                             +:+ newline])) as Hrec.
  { unfold StdLogger_log. rewrite Hgate. simpl.
    rewrite decide_True by done. by rewrite Logger_Println_record. }
  split; [done|]. split; [|split; [|split]].
  - subst object. unfold log_object. rewrite !dom_insert_L, dom_empty_L.
    set_solver.
  - subst object. unfold log_object. by simplify_map_eq.
  - subst object. unfold log_object. by simplify_map_eq.
  - intros Hfail. by rewrite Hrec, Hfail.
Qed.

Lemma log_structured_object_witness :
  StdLogger_log
    (NewLogger {| Config.LogType := "console"; Config.LogDir := "./logs";
                  Config.LogLevel := "debug"; Config.LogFormat := "JSON" |})
    WarnLevel "warn" "disk at 91%" (Some Background) []
    {| fmt_Sprintf := λ m _, m; json_Marshal := λ _, None;
       time_Now_RFC3339 := "2024-05-01T10:00:00Z";
       runtime_Caller3 := ("main.go", 12); runtime_Caller2 := None;
       log_header := "2024/05/01 10:00:00 Logger.go:146: " |} []
  = Ret ([] ++ ["2024/05/01 10:00:00 Logger.go:146: " +:+ newline]).
Proof.
  destruct (log_structured_object
              (NewLogger {| Config.LogType := "console"; Config.LogDir := "./logs";
                            Config.LogLevel := "debug"; Config.LogFormat := "JSON" |})
              WarnLevel "warn" "disk at 91%" Background []
              {| fmt_Sprintf := λ m _, m; json_Marshal := λ _, None;
                 time_Now_RFC3339 := "2024-05-01T10:00:00Z";
                 runtime_Caller3 := ("main.go", 12); runtime_Caller2 := None;
                 log_header := "2024/05/01 10:00:00 Logger.go:146: " |} []
              eq_refl eq_refl) as (_ & _ & _ & _ & Hfail).
  by apply Hfail.
Defined.

(** [StdLogger.log] looks the correlation ID up under [RequestIDKey], the
    key of [Logger.go]; [InjectRequestID] binds it under the key of
    [context.go], which is another key.  So injecting an ID into the context
    of a bound logger changes nothing in what the logger writes, while a
    value bound under [RequestIDKey] is the one written as [requestID=] in
    text mode. *)
Theorem std_logger_reads_its_own_key (l : StdLogger) (level : LogLevel)
    (levelStr msg : string) (c : Context) (args : list any)
    (env : Env) (written : list string) :
  (∀ (r : string) (c' : Context),
      InjectRequestID (Some c) r = Ret c' →
      StdLogger_log l level levelStr msg (Some c') args env written
      = StdLogger_log l level levelStr msg (Some c) args env written) ∧
  (∀ id : string,
      shouldLog l level = true → format l ≠ "json" →
      let text :=
        "[" +:+ ToUpper levelStr +:+ "] " +:+ time_Now_RFC3339 env
        +:+ " | file=" +:+ (runtime_Caller3 env).1
        +:+ ", function=" +:+ default "unknown" (runtime_Caller2 env)
        +:+ ", line=" +:+ itoa (runtime_Caller3 env).2
        +:+ ", requestID=" +:+ id
        +:+ " | " +:+ fmt_Sprintf env msg args in
      StdLogger_log l level levelStr msg
        (Some (valueCtx c RequestIDKey (Str id))) args env written
      = Ret (written ++ [log_header env +:+ text
                         +:+ (if ends_with_newline text then "" else newline)])).
Proof.
  split.
  - intros r c' [= <-]. reflexivity.
  - intros id Hgate Htext text. unfold StdLogger_log. rewrite Hgate. simpl.
    by rewrite decide_False by done.
Qed.

Lemma std_logger_reads_its_own_key_witness :
  StdLogger_log DefaultLogger InfoLevel "info" "x"
    (Some (valueCtx Background requestIDKey (Str "req-42"))) [] sample_env []
  = StdLogger_log DefaultLogger InfoLevel "info" "x" (Some Background) []
      sample_env [].
Proof.
  destruct (std_logger_reads_its_own_key DefaultLogger InfoLevel "info" "x"
              Background [] sample_env []) as [Hinject _].
  by apply (Hinject "req-42").
Defined.

(** ** Values without a percent sign *)

Lemma plain_not_prefixed (s w : string) :
  has_byte "%" s = false → Contains s (token w) = false.
Proof.
  induction s as [|c s IH]; [done|]. intros Hs.
  apply plain_cons in Hs as [Hc Hs].
  change (Contains (String c s) (token w))
    with (if HasPrefix (String c s) (token w) then true else Contains s (token w)).
  by rewrite token_cons, prefix_cons, Hc, <- token_cons, IH.
Qed.

Lemma ReplaceAll_plain (s w new : string) :
  has_byte "%" s = false → ReplaceAll s (token w) new = s.
Proof. intros Hs. by apply ReplaceAll_absent, plain_not_prefixed. Qed.

Ltac expand_token value :=
  unfold expand, expand_fields; as_tokens;
  repeat first
    [ rewrite ReplaceAll_other_token by done
    | rewrite ReplaceAll_whole by done
    | rewrite (ReplaceAll_plain value) by done ];
  reflexivity.

Section plain_values.
Variable v : Fields.

Lemma expand_timestamp_token :
  has_byte "%" (fld_timestamp v) = false →
  expand v "%timestamp%" = fld_timestamp v.
Proof. intros H. expand_token (fld_timestamp v). Qed.

Lemma expand_level_token :
  has_byte "%" (fld_level v) = false → expand v "%level%" = fld_level v.
Proof. intros H. expand_token (fld_level v). Qed.

Lemma expand_logger_token :
  has_byte "%" (fld_logger v) = false → expand v "%logger%" = fld_logger v.
Proof. intros H. expand_token (fld_logger v). Qed.

Lemma expand_file_token :
  has_byte "%" (fld_file v) = false → expand v "%file%" = fld_file v.
Proof. intros H. expand_token (fld_file v). Qed.

Lemma expand_line_token :
  has_byte "%" (fld_line v) = false → expand v "%line%" = fld_line v.
Proof. intros H. expand_token (fld_line v). Qed.

Lemma expand_function_token :
  has_byte "%" (fld_function v) = false →
  expand v "%function%" = fld_function v.
Proof. intros H. expand_token (fld_function v). Qed.

Lemma expand_requestId_token_plain :
  has_byte "%" (fld_requestID v) = false →
  expand v "%requestId%" = fld_requestID v.
Proof. intros H. expand_token (fld_requestID v). Qed.

End plain_values.

Lemma uint_plain (d : Decimal.uint) :
  has_byte "%" (NilEmpty.string_of_uint d) = false.
Proof. induction d; done. Qed.

Lemma itoa_plain (n : Z) : has_byte "%" (itoa n) = false.
Proof.
  unfold itoa, NilZero.string_of_int.
  destruct (Z.to_int n) as [d|d]; unfold NilZero.string_of_uint;
    destruct d; try done; apply uint_plain.
Qed.

Lemma level_text_plain (l : logrus.Level) :
  has_byte "%" (ToUpper (logrus.Level_String l)) = false.
Proof. by destruct l. Qed.

Lemma app_cancel_r (a b t : string) : a +:+ t = b +:+ t → a = b.
Proof.
  revert b. induction a as [|c a IH]; intros b Hab.
  - apply (f_equal String.length) in Hab. rewrite !app_length in Hab.
    destruct b; [done|]. simpl in Hab. lia.
  - destruct b as [|c' b].
    + apply (f_equal String.length) in Hab. rewrite !app_length in Hab.
      simpl in Hab. lia.
    + rewrite !app_cons in Hab. injection Hab as -> Hab. f_equal. by apply IH.
Qed.

(** ** What the placeholders are rendered as *)

Lemma renders_intro (f : DynamicFormatter) (entry : logrus.Entry) (v : Fields)
    (placeholder value : string) :
  record_fields f entry = Ret v → expand v placeholder = value →
  renders f entry placeholder value.
Proof.
  intros Hv Hval pre post Hpre Hpost. exists v. split; [done|].
  rewrite (Format_rendered (with_Pattern f _) entry v Hv). simpl Pattern.
  rewrite expand_between, Hval by done. by rewrite !app_assoc.
Qed.

(** For an entry without a caller frame, [%file%], [%line%] and
    [%function%] are rendered as [???], [0] and [???], and the function-name
    hook is not consulted, so it may be nil.  For an entry with a caller
    frame and a formatter with both hooks, [%line%] is rendered as the
    decimal line number, and [%file%] and [%function%] as the base name of
    the file and as the hook's result when these have no percent sign. *)
Theorem caller_placeholders (f : DynamicFormatter) (entry : logrus.Entry)
    (m : MessageFormater) :
  MsgFormatter f = Some m →
  (logrus.Caller entry = None →
   renders f entry "%file%" "???" ∧
   renders f entry "%line%" "0" ∧
   renders f entry "%function%" "???") ∧
  (∀ caller h,
      logrus.Caller entry = Some caller →
      FunctionNameFormatter_ f = Some h →
      renders f entry "%line%" (itoa (Line caller)) ∧
      (has_byte "%" (path_Base (File caller)) = false →
       renders f entry "%file%" (path_Base (File caller))) ∧
      (has_byte "%" (FunctionNameFormatter_Format h (Function caller)) = false →
       renders f entry "%function%"
         (FunctionNameFormatter_Format h (Function caller)))).
Proof.
  intros Hm. split.
  - intros Hcaller.
    assert (∃ v, record_fields f entry = Ret v ∧ fld_file v = "???" ∧
                 fld_line v = "0" ∧ fld_function v = "???")
      as (v & Hv & Hfile & Hline & Hfun).
    { unfold record_fields. rewrite Hm, Hcaller. simpl. by eexists. }
    split_and!; apply (renders_intro f entry v); try done.
    + by rewrite expand_file_token; rewrite Hfile.
    + by rewrite expand_line_token; rewrite Hline.
    + by rewrite expand_function_token; rewrite Hfun.
  - intros caller h Hcaller Hh.
    assert (∃ v, record_fields f entry = Ret v ∧
                 fld_file v = path_Base (File caller) ∧
                 fld_line v = itoa (Line caller) ∧
                 fld_function v = FunctionNameFormatter_Format h (Function caller))
      as (v & Hv & Hfile & Hline & Hfun).
    { unfold record_fields. rewrite Hm, Hcaller, Hh. simpl. by eexists. }
    split_and!.
    + apply (renders_intro f entry v); [done|].
      rewrite expand_line_token; rewrite Hline; [done|apply itoa_plain].
    + intros Hplain. apply (renders_intro f entry v); [done|].
      by rewrite expand_file_token; rewrite Hfile.
    + intros Hplain. apply (renders_intro f entry v); [done|].
      by rewrite expand_function_token; rewrite Hfun.
Qed.

Lemma caller_placeholders_witness :
  renders
    {| Pattern := ""; TimestampFormat := "15:04:05";
       MsgFormatter := Some DefaultMessageFormater;
       FunctionNameFormatter_ := None |}
    {| logrus.Data := ∅; logrus.Time := sample_time;
       logrus.EntryLevel := logrus.InfoLevel; logrus.Caller := None;
       logrus.Message := "hello" |}
    "%function%" "???".
Proof.
  destruct (caller_placeholders
              {| Pattern := ""; TimestampFormat := "15:04:05";
                 MsgFormatter := Some DefaultMessageFormater;
                 FunctionNameFormatter_ := None |}
              {| logrus.Data := ∅; logrus.Time := sample_time;
                 logrus.EntryLevel := logrus.InfoLevel; logrus.Caller := None;
                 logrus.Message := "hello" |}
              DefaultMessageFormater eq_refl) as [Hnone _].
  by apply Hnone.
Defined.

(** The logger name is rendered as [main] when the entry has no [logger]
    field, and also when the field is there but nil; a string field without
    a percent sign is rendered as it is.  The correlation ID is rendered as
    [unknown] only when the entry has no [requestId] field: a field that is
    there but nil is rendered as [<nil>]. *)
Theorem logger_and_request_id_defaults (f : DynamicFormatter)
    (entry : logrus.Entry) (v : Fields) :
  record_fields f entry = Ret v →
  (logrus.Data entry !! "logger" = None ∨
   logrus.Data entry !! "logger" = Some Nil →
   renders f entry "%logger%" "main") ∧
  (∀ name, logrus.Data entry !! "logger" = Some (Str name) →
           has_byte "%" name = false →
           renders f entry "%logger%" name) ∧
  (logrus.Data entry !! "requestId" = None →
   renders f entry "%requestId%" "unknown") ∧
  (logrus.Data entry !! "requestId" = Some Nil →
   renders f entry "%requestId%" "<nil>").
Proof.
  intros Hv.
  assert (fld_logger v
          = (let logger := default Nil (logrus.Data entry !! "logger") in
             Sprint (match logger with Nil => Str "main" | _ => logger end)))
    as Hlogger.
  { unfold record_fields in Hv. destruct (MsgFormatter f); [|done]. simpl in Hv.
    destruct (logrus.Caller entry); simpl in Hv;
      [destruct (FunctionNameFormatter_ f); [|done]; simpl in Hv|];
      by injection Hv as <-. }
  destruct (record_fields_inv f entry v Hv) as (m & _ & _ & Hrid & _).
  unfold requestID_text in Hrid.
  split_and!.
  - intros Habsent. apply (renders_intro f entry v); [done|].
    rewrite expand_logger_token; rewrite Hlogger;
      by destruct Habsent as [-> | ->].
  - intros name Hname Hplain. apply (renders_intro f entry v); [done|].
    rewrite expand_logger_token; rewrite Hlogger, Hname; done.
  - intros Habsent. apply (renders_intro f entry v); [done|].
    rewrite expand_requestId_token_plain; rewrite Hrid, Habsent; done.
  - intros Hnil. apply (renders_intro f entry v); [done|].
    rewrite expand_requestId_token_plain; rewrite Hrid, Hnil; done.
Qed.

Lemma logger_and_request_id_defaults_witness :
  renders (sample_formatter "")
    (sample_entry {[ "logger" := Str "main.someFunc" ]} "hello")
    "%logger%" "main.someFunc" ∧
  renders (sample_formatter "")
    (sample_entry {[ "requestId" := Nil ]} "hello") "%requestId%" "<nil>".
Proof.
  split.
  - destruct (logger_and_request_id_defaults (sample_formatter "")
                (sample_entry {[ "logger" := Str "main.someFunc" ]} "hello")
                _ eq_refl) as (_ & Hname & _).
    by apply Hname.
  - destruct (logger_and_request_id_defaults (sample_formatter "")
                (sample_entry {[ "requestId" := Nil ]} "hello")
                _ eq_refl) as (_ & _ & _ & Hnil).
    by apply Hnil.
Defined.

(** ** Patterns as a whole *)

(** A pattern in which none of the eight recognized placeholders occurs is
    returned as it is, followed by the newline, whatever the record
    holds. *)
Theorem pattern_without_placeholders_verbatim (f : DynamicFormatter)
    (entry : logrus.Entry) (v : Fields) :
  record_fields f entry = Ret v →
  (∀ p, p ∈ recognized → Contains (Pattern f) p = false) →
  DynamicFormatter_Format f entry = Ret (Pattern f +:+ newline, None).
Proof.
  intros Hv Hnone. rewrite (Format_rendered f entry v Hv).
  unfold expand, expand_fields.
  by repeat (rewrite (ReplaceAll_absent _ _ (Pattern f))
               by (apply Hnone; known_placeholder)).
Qed.

Lemma pattern_without_placeholders_verbatim_witness :
  DynamicFormatter_Format (sample_formatter "100% done, %unknown% left")
    (sample_entry ∅ "hello")
  = Ret ("100% done, %unknown% left" +:+ newline, None).
Proof.
  apply (pattern_without_placeholders_verbatim
           (sample_formatter "100% done, %unknown% left")
           (sample_entry ∅ "hello") _ eq_refl).
  intros p Hp. unfold recognized in Hp.
  repeat (apply elem_of_cons in Hp as [->|Hp]; [reflexivity|]).
  by apply elem_of_nil in Hp.
Defined.

(** Rendering works piece by piece across a separator byte: if the pattern
    [a] is rendered as the line [la] and the pattern [b] as the line [lb],
    then [a], a separator and [b] in one pattern are rendered as [la], the
    separator and [lb]. *)
Theorem rendering_splits_at_separators (f : DynamicFormatter)
    (entry : logrus.Entry) (a b la lb : string) (d : ascii) :
  separator d = true →
  DynamicFormatter_Format (with_Pattern f a) entry = Ret (la +:+ newline, None) →
  DynamicFormatter_Format (with_Pattern f b) entry = Ret (lb +:+ newline, None) →
  DynamicFormatter_Format (with_Pattern f (a +:+ String d b)) entry
  = Ret (la +:+ String d lb +:+ newline, None).
Proof.
  intros Hd Ha Hb. rewrite Format_expand in Ha, Hb |- *.
  change (record_fields (with_Pattern f a) entry)
    with (record_fields f entry) in Ha.
  change (record_fields (with_Pattern f b) entry)
    with (record_fields f entry) in Hb.
  change (record_fields (with_Pattern f (a +:+ String d b)) entry)
    with (record_fields f entry).
  destruct (record_fields f entry) as [v|]; [|done]. simpl in *.
  injection Ha as Ha. injection Hb as Hb.
  apply app_cancel_r in Ha, Hb. rewrite expand_sep, Ha, Hb by done.
  by rewrite app_assoc, app_cons.
Qed.

Lemma rendering_splits_at_separators_witness :
  DynamicFormatter_Format
    (with_Pattern (sample_formatter "") ("[%level%]" +:+ String " " "%message%"))
    (sample_entry ∅ "hello")
  = Ret ("[INFO]" +:+ String " " "hello" +:+ newline, None).
Proof.
  apply (rendering_splits_at_separators (sample_formatter "")
           (sample_entry ∅ "hello") "[%level%]" "%message%" "[INFO]" "hello" " ");
    reflexivity.
Defined.

(** With the pattern that [Init] falls back to, a record whose timestamp,
    correlation ID, file and function texts have no percent sign is
    rendered as these fields in the order timestamp, level, correlation ID,
    file and line, function, message, separated by bars; the message may
    hold anything.  [Init] installs that pattern when the configuration
    cannot be loaded. *)
Theorem fallback_pattern_line (f : DynamicFormatter) (entry : logrus.Entry)
    (v : Fields) :
  record_fields f entry = Ret v →
  Pattern f = fallback_pattern →
  has_byte "%" (fld_timestamp v) = false →
  has_byte "%" (fld_requestID v) = false →
  has_byte "%" (fld_file v) = false →
  has_byte "%" (fld_function v) = false →
  DynamicFormatter_Format f entry
  = Ret (fld_timestamp v +:+ " | " +:+ fld_level v +:+ " | "
         +:+ fld_requestID v +:+ " | " +:+ fld_file v +:+ ":" +:+ fld_line v
         +:+ " | " +:+ fld_function v +:+ " | " +:+ fld_message v
         +:+ newline, None) ∧
  (∀ reg Log,
      logrus.Formatter (Init None reg Log).1
      = DynamicFormatter_Format
          {| Pattern := fallback_pattern; TimestampFormat := "2006-01-02 15:04:05";
             MsgFormatter := reg; FunctionNameFormatter_ := None |}).
Proof.
  intros Hv Hpat Hts Hrid Hfile Hfun. split; [|reflexivity].
  assert (has_byte "%" (fld_level v) = false) as Hlevel.
  { destruct (record_fields_inv f entry v Hv) as (m & _ & _ & _ & ->).
    apply level_text_plain. }
  assert (has_byte "%" (fld_line v) = false) as Hline.
  { unfold record_fields in Hv. destruct (MsgFormatter f); [|done]. simpl in Hv.
    destruct (logrus.Caller entry); simpl in Hv;
      [destruct (FunctionNameFormatter_ f); [|done]; simpl in Hv|];
      injection Hv as <-; apply itoa_plain. }
  rewrite (Format_rendered f entry v Hv), Hpat. unfold fallback_pattern.
  change "%timestamp% | %level% | %requestId% | %file%:%line% | %function% | %message%"
    with ("%timestamp%" +:+ String " " ("|" +:+ String " " ("%level%"
          +:+ String " " ("|" +:+ String " " ("%requestId%"
          +:+ String " " ("|" +:+ String " " ("%file%"
          +:+ String ":" ("%line%"
          +:+ String " " ("|" +:+ String " " ("%function%"
          +:+ String " " ("|" +:+ String " " "%message%"))))))))))).
  rewrite !expand_sep by done.
  rewrite expand_timestamp_token, expand_level_token, expand_requestId_token_plain,
    expand_file_token, expand_line_token, expand_function_token,
    expand_message_token by done.
  change (expand v "|") with "|".
  repeat (rewrite ?app_assoc, ?app_cons). reflexivity.
Qed.

Lemma fallback_pattern_line_witness :
  DynamicFormatter_Format (sample_formatter fallback_pattern)
    (sample_entry {[ "requestId" := Str "req-42" ]} "50% done")
  = Ret ("2024-05-01 10:00:00" +:+ " | " +:+ "INFO" +:+ " | " +:+ "req-42"
         +:+ " | " +:+ "handler.go" +:+ ":" +:+ "42" +:+ " | " +:+ "Process"
         +:+ " | " +:+ "50% done" +:+ newline, None).
Proof.
  refine (proj1 (fallback_pattern_line (sample_formatter fallback_pattern)
                   (sample_entry {[ "requestId" := Str "req-42" ]} "50% done")
                   _ eq_refl eq_refl _ _ _ _)); by vm_compute.
Defined.

(** The formatter with hooks is the earlier formatter run on the entry to
    which the hooks have been applied: the message hook to the message, the
    function-name hook to the function name of the caller. *)
Theorem hooks_refine_the_earlier_formatter (f : DynamicFormatter)
    (entry : logrus.Entry) (m : MessageFormater) (h : FunctionNameFormatter) :
  MsgFormatter f = Some m → FunctionNameFormatter_ f = Some h →
  DynamicFormatter_Format f entry
  = Legacy.DynamicFormatter_Format (legacy_of f) (hooked_entry m h entry).
Proof.
  intros Hm Hh. unfold DynamicFormatter_Format, Legacy.DynamicFormatter_Format.
  rewrite Hm, Hh. simpl. by destruct (logrus.Caller entry).
Qed.

Lemma hooks_refine_the_earlier_formatter_witness :
  DynamicFormatter_Format (sample_formatter "%function%: %message%")
    (sample_entry ∅ "hello")
  = Legacy.DynamicFormatter_Format
      (legacy_of (sample_formatter "%function%: %message%"))
      (hooked_entry DefaultMessageFormater DefaultFunctionNameFormatter
         (sample_entry ∅ "hello")).
Proof.
  by apply hooks_refine_the_earlier_formatter.
Defined.

(** ** [Init] and the registered message formatter *)

(** A message formatter registered before [Init] is the one the installed
    formatter applies: for an entry without a caller frame the line is the
    expansion of the configured pattern (the fallback pattern if the
    configuration could not be loaded) with the hook's result as the
    message, and with nothing registered the message is left as it is.
    After registering nil, formatting any entry panics. *)
Theorem registered_message_formatter_is_applied (loaded : option LogConfig)
    (reg0 : option MessageFormater) (Log0 : logrus.Logger) (entry : logrus.Entry) :
  let pattern := from_option cfg_Pattern fallback_pattern loaded in
  (∀ m : MessageFormater,
      logrus.Caller entry = None →
      ∃ v,
        logrus.Formatter
          (Init loaded (GetMessageFormater (RegisterMessageFormater (Some m) reg0))
             Log0).1 entry
        = Ret (expand v pattern +:+ newline, None) ∧
        fld_message v = MessageFormater_Format m (logrus.Message entry)) ∧
  (logrus.Caller entry = None →
   ∃ v,
     logrus.Formatter
       (Init loaded (GetMessageFormater registeredMessageFormater_initial) Log0).1
       entry
     = Ret (expand v pattern +:+ newline, None) ∧
     fld_message v = logrus.Message entry) ∧
  logrus.Formatter
    (Init loaded (GetMessageFormater (RegisterMessageFormater None reg0)) Log0).1
    entry
  = Panic nil_dereference.
Proof.
  intros pattern.
  assert (∀ m : MessageFormater,
             logrus.Caller entry = None →
             ∃ v,
               logrus.Formatter (Init loaded (Some m) Log0).1 entry
               = Ret (expand v pattern +:+ newline, None) ∧
               fld_message v = MessageFormater_Format m (logrus.Message entry))
    as Hhook.
  { intros m Hcaller. subst pattern. unfold Init.
    destruct loaded as [cfg|]; simpl logrus.Formatter;
      rewrite Format_expand; unfold record_fields; simpl;
      rewrite Hcaller; simpl; eexists; (split; [reflexivity|reflexivity]). }
  split; [|split].
  - exact Hhook.
  - exact (Hhook DefaultMessageFormater).
  - reflexivity.
Qed.

Lemma registered_message_formatter_is_applied_witness :
  ∃ v,
    logrus.Formatter
      (Init None
         (GetMessageFormater
            (RegisterMessageFormater
               (Some {| MessageFormater_Format := λ s, "app: " +:+ s |})
               registeredMessageFormater_initial))
         sample_Log).1
      {| logrus.Data := ∅; logrus.Time := sample_time;
         logrus.EntryLevel := logrus.InfoLevel; logrus.Caller := None;
         logrus.Message := "started" |}
    = Ret (expand v fallback_pattern +:+ newline, None) ∧
    fld_message v = "app: " +:+ "started".
Proof.
  destruct (registered_message_formatter_is_applied None
              registeredMessageFormater_initial sample_Log
              {| logrus.Data := ∅; logrus.Time := sample_time;
                 logrus.EntryLevel := logrus.InfoLevel; logrus.Caller := None;
                 logrus.Message := "started" |}) as (Hhook & _).
  by apply (Hhook {| MessageFormater_Format := λ s, "app: " +:+ s |}).
Defined.

(** [Init] turns caller reporting on and installs a formatter without a
    function-name hook.  So after [Init], whatever was registered and
    configured, an [Info] call on an entry of the package logger whose
    caller frame is found panics if the level lets it pass, and returns
    without output if it does not; with the fallback configuration the level
    lets it pass. *)
Theorem info_after_Init_panics_with_caller (loaded : option LogConfig)
    (reg : option MessageFormater) (Log0 : logrus.Logger)
    (entry : logrus.Entry) (msg : string) (site : logrus.Site) :
  let Log := (Init loaded reg Log0).1 in
  (∀ frame,
      logrus.IsLevelEnabled Log logrus.InfoLevel = true →
      logrus.site_caller site = Some frame →
      logrus.Entry_Info Log entry msg site = Panic nil_dereference) ∧
  (logrus.IsLevelEnabled Log logrus.InfoLevel = false →
   logrus.Entry_Info Log entry msg site = Ret None) ∧
  (loaded = None → logrus.IsLevelEnabled Log logrus.InfoLevel = true).
Proof.
  intros Log. split; [|split].
  - intros frame Henabled Hsite. unfold logrus.Entry_Info. rewrite Henabled.
    subst Log. unfold Init. simpl. rewrite Hsite.
    unfold DynamicFormatter_Format. simpl. by destruct reg.
  - intros Hdisabled. unfold logrus.Entry_Info. by rewrite Hdisabled.
  - by intros ->.
Qed.

Lemma info_after_Init_panics_with_caller_witness :
  logrus.Entry_Info (Init None registeredMessageFormater_initial sample_Log).1
    (logrus.WithFields {[ "logger" := Str "main" ]} sample_zero_time)
    "started" sample_site
  = Panic nil_dereference.
Proof.
  destruct (info_after_Init_panics_with_caller None
              registeredMessageFormater_initial sample_Log
              (logrus.WithFields {[ "logger" := Str "main" ]} sample_zero_time)
              "started" sample_site) as (Hpanic & _ & Henabled).
  by apply (Hpanic sample_frame); [apply Henabled|].
Defined.

(** ** The function-name hook, once more *)

(** The default function-name formatter leaves its own results alone:
    applying it twice gives what applying it once gives. *)
Theorem default_function_name_idempotent (name : string) :
  DefaultFunctionNameFormatter_Format (DefaultFunctionNameFormatter_Format name)
  = DefaultFunctionNameFormatter_Format name.
Proof.
  assert (∀ s, has_byte "." s = false →
               DefaultFunctionNameFormatter_Format s = s) as Hfree.
  { intros s Hs. unfold DefaultFunctionNameFormatter_Format, Split.
    by rewrite (split_byte_free "." s "" Hs). }
  destruct (last_dot_cases "." name) as [Hname|(pre & suf & -> & Hsuf)].
  - by rewrite !(Hfree _ Hname).
  - assert (DefaultFunctionNameFormatter_Format (pre +:+ String "." suf) = suf)
      as ->.
    { unfold DefaultFunctionNameFormatter_Format, Split.
      by rewrite (split_byte_last "." pre suf "" Hsuf). }
    by apply Hfree.
Qed.

(** ** Nil contexts *)

(** A nil context makes the propagator panic: [InjectRequestID] at
    [context.WithValue], [GetRequestID] and the package-level [WithContext]
    at [ctx.Value].  A [StdLogger] bound to a nil context is no better than
    a plain one: each of its calls that the gate lets through panics, since
    the fallback for a nil argument is the nil context it is bound to.  A
    context passed to [log] explicitly is used instead of the bound one. *)
Theorem nil_context_panics :
  (∀ r, InjectRequestID None r = Panic "cannot create context from nil parent") ∧
  GetRequestID None = Panic nil_dereference ∧
  (∀ zero, WithContext None zero = Panic nil_dereference) ∧
  (∀ (s : Severity) (l : StdLogger) msg args env written,
      shouldLog l (level_of s) = true →
      StdLoggerWithContext_call s (StdLogger_WithContext l None)
        msg args env written
      = Panic nil_dereference) ∧
  (∀ (l : StdLogger) bound (c : Context) level levelStr msg args env written,
      StdLoggerWithContext_log (StdLogger_WithContext l bound)
        level levelStr msg (Some c) args env written
      = StdLogger_log l level levelStr msg (Some c) args env written).
Proof.
  split_and!; try reflexivity.
  intros s l msg args env written Hgate.
  destruct s; by apply log_nil_context.
Qed.

Lemma nil_context_panics_witness :
  StdLoggerWithContext_call Warn (StdLogger_WithContext DefaultLogger None)
    "x" [] sample_env []
  = Panic nil_dereference.
Proof.
  destruct nil_context_panics as (_ & _ & _ & Hbound & _).
  by apply Hbound.
Defined.
